(** * Dynamic Memory extension (src/index.js): a shallow embedding

    The extension intercepts the chat array of the host, keeps a trailing
    "present" window verbatim, summarises the older messages page by page
    through a remote completion endpoint and splices one synthetic system
    message back into the array.

    Conventions of the embedding:
    - a JavaScript string is the list of its UTF-16 code units, so that
      [length] is the [.length] of the source;
    - the numeric settings are integers ([Z]), as the data model of the
      specification has them; the comparisons and additions of the source
      are exact on them.  [NaN], which the settings form stores for an empty
      field, is not an integer and is outside the embedding: every statement
      below is about integer settings;
    - the console, the toast notifications and the network are an event
      trace carried by the world; the remote endpoint and the clock are an
      oracle ([Env]) over which every theorem quantifies;
    - the [while] loop of [paginate] takes fuel: [None] is "still running". *)

From Stdlib Require Import String Ascii DecimalString.
From Stdlib Require Import List ZArith NArith QArith Lia Bool.
Import ListNotations.

Local Open Scope Z_scope.

(* ================================================================== *)
(** ** Strings *)

Module JsString.

(** One UTF-16 code unit. *)
Definition char16 := N.

Definition jsstring := list char16.

(** An ASCII literal of the source. *)
Definition lit (s : string) : jsstring :=
  map N_of_ascii (list_ascii_of_string s).

(** The line feed of the template literals. *)
Definition LF : jsstring := [10%N].

Fixpoint eqb (a b : jsstring) : bool :=
  match a, b with
  | [], [] => true
  | x :: a', y :: b' => N.eqb x y && eqb a' b'
  | _, _ => false
  end.

(** [s.length] as a number. *)
Definition len (s : jsstring) : Z := Z.of_nat (length s).

(** Clamping of an index argument of [substring] into [0, len]. *)
Definition clamp (n x : Z) : Z := Z.max 0 (Z.min x n).

(** [s.substring(a, b)]: both ends clamped, swapped when out of order. *)
Definition substring (s : jsstring) (a b : Z) : jsstring :=
  let a' := clamp (len s) a in
  let b' := clamp (len s) b in
  let from := Z.min a' b' in
  let to := Z.max a' b' in
  firstn (Z.to_nat (to - from)) (skipn (Z.to_nat from) s).

(** [parts.join(sep)]. *)
Fixpoint join (sep : jsstring) (parts : list jsstring) : jsstring :=
  match parts with
  | [] => []
  | [p] => p
  | p :: rest => p ++ sep ++ join sep rest
  end.

(** White space and line terminators, the code units [trim] strips. *)
Definition is_white (c : char16) : bool :=
  ((9 <=? c) && (c <=? 13) || (c =? 32) || (c =? 160) || (c =? 5760)
   || (8192 <=? c) && (c <=? 8202) || (c =? 8232) || (c =? 8233)
   || (c =? 8239) || (c =? 8287) || (c =? 12288) || (c =? 65279))%N.

Fixpoint trimStart (s : jsstring) : jsstring :=
  match s with
  | [] => []
  | c :: rest => if is_white c then trimStart rest else s
  end.

(** [s.trim()]. *)
Definition trim (s : jsstring) : jsstring :=
  rev (trimStart (rev (trimStart s))).

(** [String(n)] for a non-negative integer. *)
Definition of_N (n : N) : jsstring :=
  lit (NilZero.string_of_uint (N.to_uint n)).

End JsString.

Import JsString.

(* ================================================================== *)
(** ** Data model *)

(** A chat message of the host, with the fields the extension touches. *)
Record Message := mkMessage {
  is_user : bool;
  name : jsstring;
  is_system : bool;
  send_date : Z;
  mes : jsstring
}.

(** The settings object returned by [getSettings()], every recognised key
    present (that function fills the missing ones from [defaultSettings]). *)
Record Settings := mkSettings {
  enabled : bool;
  pageSize : Z;
  presentSituationSize : Z;
  apiUrl : jsstring;
  apiKey : jsstring;
  summarizeModel : jsstring
}.

Definition defaultSettings : Settings := {|
  enabled := true;
  pageSize := 2000;
  presentSituationSize := 1000;
  apiUrl := lit "https://openrouter.ai/api/v1/chat/completions";
  apiKey := [];
  summarizeModel := lit "openai/gpt-3.5-turbo"
|}.

(** The template literal [`${message.name}: ${message.mes}\n`]. *)
Definition messageText (message : Message) : jsstring :=
  name message ++ lit ": " ++ mes message ++ LF.

(* ================================================================== *)
(** ** paginate *)

(** The first loop of [paginate]: [fullText += ...] over the messages. *)
Fixpoint fullTextOf (chat : list Message) (fullText : jsstring) : jsstring :=
  match chat with
  | [] => fullText
  | message :: rest => fullTextOf rest (fullText ++ messageText message)
  end.

(** The [while (startIndex < fullText.length)] loop. *)
Fixpoint paginate_loop (fuel : nat) (fullText : jsstring) (pageSize : Z)
    (startIndex : Z) (pages : list jsstring) : option (list jsstring) :=
  match fuel with
  | O => None
  | S fuel' =>
      if startIndex <? len fullText then
        paginate_loop fuel' fullText pageSize (startIndex + pageSize)
          (pages ++ [substring fullText startIndex (startIndex + pageSize)])
      else Some pages
  end.

Definition paginate (fuel : nat) (chat : list Message) (pageSize : Z)
    : option (list jsstring) :=
  let fullText := fullTextOf chat [] in
  if len fullText =? 0 then Some []
  else paginate_loop fuel fullText pageSize 0 [].

(* ================================================================== *)
(** ** Values, the network and the world *)

(** A JavaScript value as [response.json()] can produce it (plus
    [undefined], the result of reading a property that is not there). *)
#[local] Unset Elimination Schemes.
Inductive JsVal :=
| VUndefined
| VNull
| VBool (b : bool)
| VNum (q : Q)
| VStr (s : jsstring)
| VArr (elems : list JsVal)
| VObj (props : list (jsstring * JsVal)).
#[local] Set Elimination Schemes.

(** What a [throw] carries. *)
Inductive JsError :=
| TypeError (what : jsstring)
| BodyError (what : jsstring)
| NetworkError (what : jsstring).

(** The arguments of [fetch(apiUrl, {method, headers, body})]; [body] is
    the object handed to [JSON.stringify]. *)
Record Request := mkRequest {
  url : jsstring;
  method : jsstring;
  headers : list (jsstring * jsstring);
  body : JsVal
}.

(** A resolved [Response]: [text] and [json] are what reading the body
    gives, or the error the read rejects with. *)
Record Response := mkResponse {
  ok : bool;
  status : N;
  text : JsError + jsstring;
  json : JsError + JsVal
}.

(** [await fetch(...)] either resolves or rejects. *)
Inductive FetchOutcome :=
| Resolves (response : Response)
| Rejects (error : JsError).

(** The extra arguments of a [console.error]. *)
Inductive LogArg :=
| ArgStr (s : jsstring)
| ArgVal (v : JsVal)
| ArgErr (e : JsError).

Inductive Event :=
| ConsoleLog (msg : jsstring)
| ConsoleError (msg : jsstring) (args : list LogArg)
| ToastError (msg : jsstring)
| Fetch (req : Request).

(** The mutable state a run can touch: the caller's [chat] array, the
    module-level [dynamicMemory], and the trace of observable effects in
    chronological order. *)
Record World := mkWorld {
  chat : list Message;
  dynamicMemory : list jsstring;
  events : list Event
}.

(** The outside: the outcome of the [n]-th network call of the trace, and
    the value of [Date.now()]. *)
Record Env := mkEnv {
  remote : nat -> Request -> FetchOutcome;
  now : Z
}.

Definition is_fetch (e : Event) : bool :=
  match e with Fetch _ => true | _ => false end.

Definition is_toast_error (e : Event) : bool :=
  match e with ToastError _ => true | _ => false end.

Definition is_console_error (e : Event) : bool :=
  match e with ConsoleError _ _ => true | _ => false end.

(** Number of network calls made so far. *)
Definition net_calls (w : World) : nat :=
  List.length (filter is_fetch (events w)).

Definition emit (e : Event) (w : World) : World :=
  {| chat := chat w; dynamicMemory := dynamicMemory w;
     events := events w ++ [e] |}.

(* ================================================================== *)
(** ** A state-and-exception monad for the body of the [try] block *)

Inductive Completion (A : Type) :=
| Normal (a : A)
| Throw (error : JsError).
Arguments Normal {A} a.
Arguments Throw {A} error.

Definition Exec (A : Type) := World -> Completion A * World.

Definition ret {A} (a : A) : Exec A := fun w => (Normal a, w).

Definition throw {A} (e : JsError) : Exec A := fun w => (Throw e, w).

Definition bind {A B} (m : Exec A) (k : A -> Exec B) : Exec B :=
  fun w =>
    match m w with
    | (Normal a, w') => k a w'
    | (Throw e, w') => (Throw e, w')
    end.

Declare Scope exec_scope.
Delimit Scope exec_scope with exec.
Notation "x <- m ;; k" := (bind m (fun x => k))
  (at level 100, m at next level, right associativity) : exec_scope.
Notation "m ;;; k" := (bind m (fun _ => k))
  (at level 100, right associativity) : exec_scope.

Definition effect (e : Event) : Exec unit := fun w => (Normal tt, emit e w).

Definition lift {A} (r : JsError + A) : Exec A :=
  match r with
  | inr a => ret a
  | inl e => throw e
  end.

(** [await fetch(url, init)]: the call is traced, the oracle answers. *)
Definition fetch (env : Env) (req : Request) : Exec Response :=
  fun w =>
    match remote env (net_calls w) req with
    | Resolves response => (Normal response, emit (Fetch req) w)
    | Rejects error => (Throw error, emit (Fetch req) w)
    end.

(* ------------------------------------------------------------------ *)
(** *** Property reads on parsed JSON *)

Fixpoint assoc (k : jsstring) (props : list (jsstring * JsVal)) : JsVal :=
  match props with
  | [] => VUndefined
  | (k', v) :: rest => if JsString.eqb k k' then v else assoc k rest
  end.

(** [v.k] for a key [k] that is neither [length] nor an index and that no
    prototype defines ([choices], [message], [content]). *)
Definition get (v : JsVal) (k : string) : Exec JsVal :=
  match v with
  | VUndefined | VNull =>
      throw (TypeError (lit "Cannot read properties of null or undefined"))
  | VObj props => ret (assoc (lit k) props)
  | _ => ret VUndefined
  end.

(** [v.length] for a truthy [v]. *)
Definition get_length (v : JsVal) : JsVal :=
  match v with
  | VStr s => VNum (inject_Z (len s))
  | VArr elems => VNum (inject_Z (Z.of_nat (List.length elems)))
  | VObj props => assoc (lit "length") props
  | _ => VUndefined
  end.

(** [v[0]] for a truthy [v]. *)
Definition get_first (v : JsVal) : JsVal :=
  match v with
  | VStr (c :: _) => VStr [c]
  | VArr (x :: _) => x
  | VObj props => assoc (lit "0") props
  | _ => VUndefined
  end.

(** [!v]. *)
Definition falsy (v : JsVal) : bool :=
  match v with
  | VUndefined | VNull | VBool false | VStr [] => true
  | VNum q => Qeq_bool q 0
  | _ => false
  end.

(** [v === 0]. *)
Definition is_zero (v : JsVal) : bool :=
  match v with
  | VNum q => Qeq_bool q 0
  | _ => false
  end.

(** [v.trim()]: only a string has the method. *)
Definition call_trim (v : JsVal) : Exec jsstring :=
  match v with
  | VStr s => ret (trim s)
  | VUndefined | VNull =>
      throw (TypeError (lit "Cannot read properties of null or undefined"))
  | _ => throw (TypeError (lit "trim is not a function"))
  end.

(* ================================================================== *)
(** ** summarizePage *)

Module Msg.
Definition no_key_toast : jsstring :=
  lit "Dynamic Memory: API key is not set. Please set it in the extension settings.".
Definition no_key_log : jsstring := lit "Dynamic Memory: API key is not set.".
Definition status_toast (status : N) : jsstring :=
  lit "Dynamic Memory: API request failed with status " ++ of_N status
  ++ lit ". See console for details.".
Definition status_log (status : N) : jsstring :=
  lit "Dynamic Memory: API request failed with status " ++ of_N status.
Definition status_details : jsstring := lit "Error details:".
Definition invalid_toast : jsstring :=
  lit "Dynamic Memory: Invalid API response. See console for details.".
Definition invalid_log : jsstring := lit "Dynamic Memory: Invalid API response".
Definition call_toast : jsstring :=
  lit "Dynamic Memory: Error during API call. See console for details.".
Definition call_log : jsstring := lit "Dynamic Memory: Error during API call".
Definition triggered : jsstring := lit "Dynamic Memory Interceptor triggered".
Definition no_history : jsstring := lit "Dynamic Memory: No history to summarize.".
Definition reconstructed : jsstring :=
  lit "Dynamic Memory: Chat context reconstructed with summary.".
Definition label : jsstring :=
  lit "[The following is a summarized history of past events, used for context]".
End Msg.

(** The single instruction sent for one page. *)
Definition promptOf (page presentSituation : jsstring) : jsstring :=
  lit "Present Situation:" ++ LF ++ presentSituation ++ LF ++ LF
  ++ lit "Memory:" ++ LF ++ page ++ LF ++ LF
  ++ lit "Based on the present situation, what details from the memory are relevant? Be brief. If nothing is relevant, respond with a blank message.".

Definition requestOf (settings : Settings) (prompt : jsstring) : Request := {|
  url := apiUrl settings;
  method := lit "POST";
  headers :=
    [ (lit "Content-Type", lit "application/json");
      (lit "Authorization", lit "Bearer " ++ apiKey settings);
      (lit "HTTP-Referer", lit "https://sillytavern.app");
      (lit "X-Title", lit "SillyTavern") ];
  body :=
    VObj [ (lit "model", VStr (summarizeModel settings));
           (lit "messages",
            VArr [ VObj [ (lit "role", VStr (lit "user"));
                          (lit "content", VStr prompt) ] ]) ]
|}.

Local Open Scope exec_scope.

(** The body of the [try] block; [None] is [null]. *)
Definition summarizePage_try (env : Env) (settings : Settings)
    (prompt : jsstring) : Exec (option jsstring) :=
  response <- fetch env (requestOf settings prompt) ;;
  if negb (ok response) then
    errorText <- lift (text response) ;;
    effect (ToastError (Msg.status_toast (status response))) ;;;
    effect (ConsoleError (Msg.status_log (status response)) []) ;;;
    effect (ConsoleError Msg.status_details [ArgStr errorText]) ;;;
    ret None
  else
    data <- lift (json response) ;;
    choices <- get data "choices" ;;
    if falsy choices || is_zero (get_length choices) then
      effect (ToastError Msg.invalid_toast) ;;;
      effect (ConsoleError Msg.invalid_log [ArgVal data]) ;;;
      ret None
    else
      message <- get (get_first choices) "message" ;;
      content <- get message "content" ;;
      trimmed <- call_trim content ;;
      ret (Some trimmed).

Local Close Scope exec_scope.

(** [summarizePage(page, presentSituation, settings)]: the returned value
    ([None] for [null]) and the world after the call. *)
Definition summarizePage (env : Env) (page presentSituation : jsstring)
    (settings : Settings) (w : World) : option jsstring * World :=
  match apiKey settings with
  | [] =>
      (None,
       emit (ConsoleError Msg.no_key_log [])
         (emit (ToastError Msg.no_key_toast) w))
  | _ :: _ =>
      let prompt := promptOf page presentSituation in
      match summarizePage_try env settings prompt w with
      | (Normal result, w') => (result, w')
      | (Throw error, w') =>
          (None,
           emit (ConsoleError Msg.call_log [ArgErr error])
             (emit (ToastError Msg.call_toast) w'))
      end
  end.

(* ================================================================== *)
(** ** dynamicMemoryInterceptor *)

(** The test that ends the leading run of system messages:
    [chat[i].is_user || (!chat[i].is_system && chat[i].name !== 'System')]. *)
Definition starts_chat (m : Message) : bool :=
  is_user m || (negb (is_system m) && negb (JsString.eqb (name m) (lit "System"))).

(** The first [for] loop, from index [i] on [rest = chat.slice(i)]:
    [Some k] is leaving the loop with [chatStartIndex = k], [None] is the
    [return] taken on the last index. *)
Fixpoint scan_start (rest : list Message) (i : nat) : option nat :=
  match rest with
  | [] => Some O
  | m :: rest' =>
      if starts_chat m then Some i
      else
        match rest' with
        | [] => None
        | _ :: _ => scan_start rest' (S i)
        end
  end.

(** The backward [for] loop over [workableChat]; [downward] lists
    [workableChat[i], workableChat[i-1], ..., workableChat[0]]. *)
Fixpoint scan_present (limit : Z) (downward : list Message)
    (presentSituationCharCount : Z) (splitIndex : nat) : nat :=
  match downward with
  | [] => splitIndex
  | message :: before =>
      let n := len (messageText message) in
      if presentSituationCharCount + n >? limit then splitIndex
      else scan_present limit before (presentSituationCharCount + n)
             (List.length before)
  end.

Definition splitIndexOf (limit : Z) (workableChat : list Message) : nat :=
  scan_present limit (rev workableChat) 0 (List.length workableChat).

Definition historyToSummarize (limit : Z) (workableChat : list Message)
    : list Message :=
  firstn (splitIndexOf limit workableChat) workableChat.

Definition presentChat (limit : Z) (workableChat : list Message)
    : list Message :=
  skipn (splitIndexOf limit workableChat) workableChat.

(** [presentChat.map(m => `${m.name}: ${m.mes}`).join('\n')]. *)
Definition presentSituationTextOf (present : list Message) : jsstring :=
  join LF (map (fun m => name m ++ lit ": " ++ mes m) present).

(** [if (summary) { summarizedPages.push(summary); }]: [null] and the empty
    string are falsy. *)
Definition push_summary (summarizedPages : list jsstring)
    (summary : option jsstring) : list jsstring :=
  match summary with
  | Some (c :: s) => summarizedPages ++ [c :: s]
  | _ => summarizedPages
  end.

(** The [for (const page of pages)] loop. *)
Fixpoint summarize_loop (env : Env) (settings : Settings)
    (presentSituationText : jsstring) (pages : list jsstring)
    (summarizedPages : list jsstring) (w : World) : list jsstring * World :=
  match pages with
  | [] => (summarizedPages, w)
  | page :: rest =>
      let '(summary, w') :=
        summarizePage env page presentSituationText settings w in
      summarize_loop env settings presentSituationText rest
        (push_summary summarizedPages summary) w'
  end.

Definition memoryMessage (env : Env) (memory : list jsstring) : Message := {|
  is_user := false;
  name := lit "System";
  is_system := true;
  send_date := now env;
  mes := Msg.label ++ LF ++ join LF memory
|}.

Definition set_dynamicMemory (memory : list jsstring) (w : World) : World :=
  {| chat := chat w; dynamicMemory := memory; events := events w |}.

(** [chat.length = 0] followed by the three [push]es. *)
Definition set_chat (msgs : list Message) (w : World) : World :=
  {| chat := msgs; dynamicMemory := dynamicMemory w; events := events w |}.

(** The entry point, on the settings [getSettings()] returns.  [None] is a
    run whose [paginate] has not come back within [fuel] iterations. *)
Definition dynamicMemoryInterceptor (fuel : nat) (env : Env)
    (settings : Settings) (w : World) : option World :=
  if negb (enabled settings) || (Z.of_nat (List.length (chat w)) <? 3) then
    Some w
  else
    let w1 := emit (ConsoleLog Msg.triggered) w in
    match scan_start (chat w1) 0 with
    | None => Some w1
    | Some chatStartIndex =>
        let initialSystemMessages := firstn chatStartIndex (chat w1) in
        let workableChat := skipn chatStartIndex (chat w1) in
        let limit := presentSituationSize settings in
        let history := historyToSummarize limit workableChat in
        let present := presentChat limit workableChat in
        if Nat.eqb (List.length history) 0 then
          Some (emit (ConsoleLog Msg.no_history) w1)
        else
          match paginate fuel history (pageSize settings) with
          | None => None
          | Some pages =>
              let presentSituationText := presentSituationTextOf present in
              let '(summarizedPages, w2) :=
                summarize_loop env settings presentSituationText pages [] w1 in
              let w3 := set_dynamicMemory summarizedPages w2 in
              if (0 <? Z.of_nat (List.length (dynamicMemory w3)))%Z then
                Some (emit (ConsoleLog Msg.reconstructed)
                        (set_chat (initialSystemMessages
                                   ++ [memoryMessage env (dynamicMemory w3)]
                                   ++ present) w3))
              else Some w3
          end
    end.

(* ================================================================== *)
(** ** Specification-side notions *)

(** The rendered form of one message as the specification words it: the
    speaker, a colon and a space, the text, a line feed.  Written out in
    code units, apart from the template literals of the source. *)
Definition speakerLine (m : Message) : jsstring :=
  name m ++ [58%N; 32%N] ++ mes m ++ [10%N].

(** The rendered blob of a message list: the ["speaker: text\n"] lines
    one after the other. *)
Definition rendered (msgs : list Message) : jsstring :=
  concat (map speakerLine msgs).

(** Its size in characters. *)
Definition renderedSize (msgs : list Message) : Z := len (rendered msgs).

(** A preamble message: not user-authored, and system-flagged or named
    [System]. *)
Definition preamble_message (m : Message) : Prop :=
  is_user m = false /\ (is_system m = true \/ name m = lit "System").

(** The strings the loop of the entry point keeps: the non-empty ones among
    the values the successive [summarizePage] calls returned. *)
Definition nonEmptyDigests (summaries : list (option jsstring)) : list jsstring :=
  filter (fun digest => negb (Nat.eqb (List.length digest) 0))
    (flat_map (fun s => match s with Some digest => [digest] | None => [] end)
       summaries).

(** The values returned by the successive [summarizePage] calls of the
    loop, in page order. *)
Fixpoint page_summaries (env : Env) (settings : Settings)
    (presentSituationText : jsstring) (pages : list jsstring) (w : World)
    : list (option jsstring) :=
  match pages with
  | [] => []
  | page :: rest =>
      let '(summary, w') :=
        summarizePage env page presentSituationText settings w in
      summary :: page_summaries env settings presentSituationText rest w'
  end.

(** The raw [choices[0].message.content] of a parsed body, when the body
    has that shape. *)
Definition content_of (data : JsVal) : option jsstring :=
  match data with
  | VObj props =>
      let choices := assoc (lit "choices") props in
      if falsy choices || is_zero (get_length choices) then None
      else
        match get_first choices with
        | VObj first =>
            match assoc (lit "message") first with
            | VObj message =>
                match assoc (lit "content") message with
                | VStr s => Some s
                | _ => None
                end
            | _ => None
            end
        | _ => None
        end
  | _ => None
  end.

(** The text the endpoint answered with, if the exchange succeeded. *)
Definition answer (o : FetchOutcome) : option jsstring :=
  match o with
  | Rejects _ => None
  | Resolves response =>
      if ok response then
        match json response with
        | inr data => content_of data
        | inl _ => None
        end
      else None
  end.

(** A body whose choice list is missing or empty. *)
Definition no_choices (data : JsVal) : Prop :=
  exists props, data = VObj props /\
    (assoc (lit "choices") props = VUndefined \/
     assoc (lit "choices") props = VArr []).

(** The windows the entry point computes on a chat that has a first
    non-preamble message. *)
Definition chatStartIndex (msgs : list Message) : nat :=
  match scan_start msgs 0 with
  | Some i => i
  | None => O
  end.

Definition initialSystemMessages (msgs : list Message) : list Message :=
  firstn (chatStartIndex msgs) msgs.

Definition workableChat (msgs : list Message) : list Message :=
  skipn (chatStartIndex msgs) msgs.

(** [w'] is [w] with the events [new] appended and nothing else changed. *)
Definition appends (w w' : World) (new : list Event) : Prop :=
  chat w' = chat w
  /\ dynamicMemory w' = dynamicMemory w
  /\ events w' = events w ++ new.

(** The request [summarizePage] sends for a page. *)
Definition pageRequest (settings : Settings) (page presentSituation : jsstring)
    : Request :=
  requestOf settings (promptOf page presentSituation).

(** Closes an [appends] goal between a world and a stack of [emit]s on it. *)
Ltac solve_appends :=
  unfold appends; simpl; repeat split;
  rewrite <- ?app_assoc; simpl; reflexivity.

(** One leaf of the case analysis of [summarizePage_try]. *)
Ltac try_leaf :=
  eexists; split; [solve_appends | split; [reflexivity | ]];
  simpl; repeat split; auto; try discriminate.

(** A string that is empty or made of white space only. *)
Definition blank (s : jsstring) : Prop :=
  Forall (fun c => is_white c = true) s.

(** An exchange that fails, or whose answer is blank. *)
Definition fails_or_blank (o : FetchOutcome) : Prop :=
  match answer o with
  | None => True
  | Some s => blank s
  end.

(** The summarization call for [page], made as the [n]-th network call,
    fails or comes back blank: there is no credential, or the exchange
    fails or answers blank. *)
Definition unproductive_call (env : Env) (settings : Settings)
    (presentSituation : jsstring) (n : nat) (page : jsstring) : Prop :=
  apiKey settings = []
  \/ fails_or_blank (remote env n (pageRequest settings page presentSituation)).

(** The value [summarizePage] returns for [page] when its request would be
    the [n]-th network call. *)
Definition summaryAt (env : Env) (settings : Settings)
    (presentSituation : jsstring) (n : nat) (page : jsstring)
    : option jsstring :=
  match apiKey settings with
  | [] => None
  | _ :: _ =>
      option_map trim
        (answer (remote env n (pageRequest settings page presentSituation)))
  end.

(** The values returned for successive pages, the first request being the
    [n]-th network call. *)
Fixpoint summariesFrom (env : Env) (settings : Settings)
    (presentSituation : jsstring) (n : nat) (pages : list jsstring)
    : list (option jsstring) :=
  match pages with
  | [] => []
  | page :: rest =>
      summaryAt env settings presentSituation n page
      :: summariesFrom env settings presentSituation (S n) rest
  end.

(** The run gets past every early [return] of the entry point and reaches
    the summarization stage. *)
Definition reaches_summarization (settings : Settings) (msgs : list Message)
    : bool :=
  enabled settings
  && (3 <=? List.length msgs)%nat
  && match scan_start msgs 0 with Some _ => true | None => false end
  && negb (Nat.eqb
             (List.length
                (historyToSummarize (presentSituationSize settings)
                   (workableChat msgs))) 0).

(** The three windows of a run, as the entry point names them. *)
Definition historyOf (settings : Settings) (msgs : list Message) : list Message :=
  historyToSummarize (presentSituationSize settings) (workableChat msgs).

Definition presentOf (settings : Settings) (msgs : list Message) : list Message :=
  presentChat (presentSituationSize settings) (workableChat msgs).

(** Fuel beyond which [paginate] has returned on the history of [msgs]
    when the page size is positive: more than the rendered history has
    characters. *)
Definition enoughFuel (settings : Settings) (msgs : list Message) (fuel : nat)
    : Prop :=
  (List.length (rendered (historyOf settings msgs)) < fuel)%nat.

(** The pages [paginate] cuts the history of [msgs] into. *)
Definition pagesOfHistory (settings : Settings) (msgs : list Message)
    : list jsstring :=
  match paginate (S (List.length (rendered (historyOf settings msgs))))
          (historyOf settings msgs) (pageSize settings) with
  | Some pages => pages
  | None => []
  end.

(** The pages a run summarises: those of its history when it reaches the
    summarization stage, none when it returns early. *)
Definition pagesOfRun (settings : Settings) (msgs : list Message)
    : list jsstring :=
  if reaches_summarization settings msgs then pagesOfHistory settings msgs
  else [].

(** The digests a run that summarises [pages] collects, from the world it
    was started in. *)
Definition digestsOfRun (env : Env) (settings : Settings) (w : World)
    (pages : list jsstring) : list jsstring :=
  nonEmptyDigests
    (summariesFrom env settings
       (presentSituationTextOf (presentOf settings (chat w)))
       (net_calls w) pages).

(** The digests of the run started in [w]. *)
Definition runDigests (env : Env) (settings : Settings) (w : World)
    : list jsstring :=
  digestsOfRun env settings w (pagesOfHistory settings (chat w)).

(* ================================================================== *)
(** ** getSettings and the host's settings store *)

(** [extensionSettings['dynamic-memory']] when it is there: for each
    recognised key, its value if the object owns the key. *)
Record StoredSettings := mkStored {
  own_enabled : option bool;
  own_pageSize : option Z;
  own_presentSituationSize : option Z;
  own_apiUrl : option jsstring;
  own_apiKey : option jsstring;
  own_summarizeModel : option jsstring
}.

(** An object that owns every key, with the values of [s]; in particular
    [structuredClone(defaultSettings)]. *)
Definition stored (s : Settings) : StoredSettings := {|
  own_enabled := Some (enabled s);
  own_pageSize := Some (pageSize s);
  own_presentSituationSize := Some (presentSituationSize s);
  own_apiUrl := Some (apiUrl s);
  own_apiKey := Some (apiKey s);
  own_summarizeModel := Some (summarizeModel s)
|}.

(** One turn of the [for] loop, and the value the key has after it:
    [if (!Object.hasOwn(object, key)) object[key] = defaultSettings[key]]. *)
Definition filled {A : Type} (own : option A) (default : A) : A :=
  match own with
  | Some v => v
  | None => default
  end.

(** [getSettings()]: the object it returns, which owns every key. *)
Definition getSettings (extensionSettings : option StoredSettings) : Settings :=
  let object :=
    match extensionSettings with
    | None => stored defaultSettings
    | Some o => o
    end in
  {| enabled := filled (own_enabled object) (enabled defaultSettings);
     pageSize := filled (own_pageSize object) (pageSize defaultSettings);
     presentSituationSize :=
       filled (own_presentSituationSize object)
         (presentSituationSize defaultSettings);
     apiUrl := filled (own_apiUrl object) (apiUrl defaultSettings);
     apiKey := filled (own_apiKey object) (apiKey defaultSettings);
     summarizeModel :=
       filled (own_summarizeModel object) (summarizeModel defaultSettings) |}.

(** The store after the call: it holds the object that was returned. *)
Definition storeAfter (extensionSettings : option StoredSettings)
    : option StoredSettings :=
  Some (stored (getSettings extensionSettings)).


(* ================================================================== *)
(** ** paginate on the numbers the settings form stores *)

(** What [parseInt] gives for a form field: an integer, or [NaN] for a
    field without leading digits. *)
Inductive JsNumber :=
| Int (z : Z)
| NaN.

(** [a + b]. *)
Definition number_add (a b : JsNumber) : JsNumber :=
  match a, b with
  | Int x, Int y => Int (x + y)
  | _, _ => NaN
  end.

(** [a < n] for an integer [n]: false at [NaN]. *)
Definition number_lt (a : JsNumber) (n : Z) : bool :=
  match a with
  | Int x => x <? n
  | NaN => false
  end.

(** The integer [substring] takes an argument for: [NaN] counts as 0. *)
Definition number_index (a : JsNumber) : Z :=
  match a with
  | Int x => x
  | NaN => 0
  end.

(** The [while] loop of [paginate], [startIndex] and [pageSize] being
    numbers. *)
Fixpoint paginate_loop_number (fuel : nat) (fullText : jsstring)
    (pageSize startIndex : JsNumber) (pages : list jsstring)
    : option (list jsstring) :=
  match fuel with
  | O => None
  | S fuel' =>
      if number_lt startIndex (len fullText) then
        paginate_loop_number fuel' fullText pageSize
          (number_add startIndex pageSize)
          (pages ++ [substring fullText (number_index startIndex)
                       (number_index (number_add startIndex pageSize))])
      else Some pages
  end.

(** [paginate(chat, pageSize)] for a page size that may be [NaN]. *)
Definition paginate_number (fuel : nat) (chat : list Message)
    (pageSize : JsNumber) : option (list jsstring) :=
  let fullText := fullTextOf chat [] in
  if len fullText =? 0 then Some []
  else paginate_loop_number fuel fullText pageSize (Int 0) [].

(* ================================================================== *)
(** ** Further specification-side notions *)

(** Number of pages of [size] characters a text needs. *)
Definition pageCount (size : Z) (text : jsstring) : nat :=
  Z.to_nat ((len text + size - 1) / size).

(** The [k]-th stretch of [size] characters of a text. *)
Definition pageAt (size : Z) (text : jsstring) (k : nat) : jsstring :=
  firstn (Z.to_nat size) (skipn (k * Z.to_nat size) text).

(** A string with no white space at either end. *)
Definition trimmed (s : jsstring) : Prop :=
  (forall c rest, s = c :: rest -> is_white c = false)
  /\ (forall front c, s = front ++ [c] -> is_white c = false).

(** The characters of a prompt besides the page and the present
    situation. *)
Definition promptOverhead : Z := len (promptOf [] []).


(* ================================================================== *)
(** ** Concrete chats, settings and endpoints *)

Module Examples.

Definition msg (user system : bool) (speaker body : string) : Message :=
  {| is_user := user; name := lit speaker; is_system := system;
     send_date := 0; mes := lit body |}.

Definition rules : Message := msg false true "System" "rules".
Definition hi : Message := msg true false "User" "hi".
Definition hello : Message := msg false false "Bot" "hello".
Definition go_on : Message := msg true false "User" "go on".

(** The chat of the worked example: one preamble message, three turns. *)
Definition chat4 : list Message := [rules; hi; hello; go_on].

Definition chat2 : list Message := [hi; go_on].

Definition system3 : list Message :=
  [rules; msg false false "System" "be brief"; msg false true "Narrator" "night"].

Definition world_of (msgs : list Message) : World :=
  {| chat := msgs; dynamicMemory := [lit "stale"]; events := [] |}.

Definition with_limit (limit : Z) : Settings :=
  {| enabled := true; pageSize := 10; presentSituationSize := limit;
     apiUrl := lit "https://example.test/v1"; apiKey := lit "sk-test";
     summarizeModel := lit "model" |}.

(** The last message alone ([User: go on] and a line feed, 12 characters)
    is over this limit. *)
Definition tight : Settings := with_limit 5.

(** Room for the last message only. *)
Definition narrow : Settings := with_limit 20.

Definition reply (content : string) : FetchOutcome :=
  Resolves
    {| ok := true; status := 200%N; text := inr [];
       json :=
         inr (VObj [ (lit "choices",
                      VArr [ VObj [ (lit "message",
                                     VObj [ (lit "content",
                                             VStr (lit content)) ]) ] ]) ]) |}.

Definition status_reply (code : N) : FetchOutcome :=
  Resolves {| ok := false; status := code; text := inr (lit "denied");
              json := inl (BodyError (lit "not JSON")) |}.

(** The first page is about tea, every other page is irrelevant. *)
Definition tea : Env :=
  {| remote := fun n _ => match n with O => reply " likes tea " | _ => reply "  " end;
     now := 1700000000000 |}.

Definition offline : Env :=
  {| remote := fun _ _ => Rejects (NetworkError (lit "Failed to fetch"));
     now := 1700000000000 |}.

Definition refusing : Env :=
  {| remote := fun _ _ => status_reply 401; now := 1700000000000 |}.

(** The history of [chat4] under [narrow], cut into pages of ten. *)
Definition history_pages : list jsstring :=
  [lit "User: hi" ++ LF ++ lit "B"; lit "ot: hello" ++ LF].

(** The world after the run of [chat4] under [narrow] against [tea]. *)
Definition after_tea : World :=
  match dynamicMemoryInterceptor 100 tea narrow (world_of chat4) with
  | Some w' => w'
  | None => world_of chat4
  end.

(** A history of 5000 rendered characters in one message. *)
Definition long_history : list Message :=
  [ {| is_user := true; name := lit "H"; is_system := false; send_date := 0;
       mes := repeat 97%N 4996 |} ].

(** [narrow] with a page size of zero. *)
Definition stuck : Settings :=
  {| enabled := true; pageSize := 0; presentSituationSize := 20;
     apiUrl := lit "https://example.test/v1"; apiKey := lit "sk-test";
     summarizeModel := lit "model" |}.

(** [narrow] without a credential. *)
Definition keyless : Settings :=
  {| enabled := true; pageSize := 10; presentSituationSize := 20;
     apiUrl := lit "https://example.test/v1"; apiKey := [];
     summarizeModel := lit "model" |}.

(** A store that owns a switched-off flag and an empty credential only. *)
Definition partial_store : StoredSettings :=
  {| own_enabled := Some false; own_pageSize := None;
     own_presentSituationSize := None; own_apiUrl := None;
     own_apiKey := Some []; own_summarizeModel := None |}.

End Examples.



(* ================================================================== *)
(** ** Strings and rendering: basic facts *)

Section StringFacts.

Lemma eqb_eq (a b : jsstring) : JsString.eqb a b = true <-> a = b.
Proof.
  revert b; induction a as [|x a IH]; intros [|y b]; simpl;
    try (split; congruence).
  rewrite andb_true_iff, N.eqb_eq, IH. split.
  - intros [-> ->]; reflexivity.
  - intros H; injection H; auto.
Qed.

Lemma len_app (a b : jsstring) : len (a ++ b) = len a + len b.
Proof. unfold len. rewrite length_app. lia. Qed.

Lemma len_nonneg (s : jsstring) : 0 <= len s.
Proof. unfold len. lia. Qed.

Lemma len_messageText (m : Message) :
  len (messageText m) = len (name m) + len (mes m) + 3.
Proof.
  unfold messageText. rewrite !len_app.
  change (len (lit ": ")) with 2. change (len LF) with 1. lia.
Qed.

Lemma messageText_positive (m : Message) : 0 < len (messageText m).
Proof.
  rewrite len_messageText.
  pose proof (len_nonneg (name m)). pose proof (len_nonneg (mes m)). lia.
Qed.

(** The template literal of the source builds the rendered form of the
    specification. *)
Lemma messageText_speakerLine (m : Message) : messageText m = speakerLine m.
Proof. reflexivity. Qed.

Lemma rendered_app (a b : list Message) :
  rendered (a ++ b) = rendered a ++ rendered b.
Proof. unfold rendered. rewrite map_app, concat_app. reflexivity. Qed.

Lemma renderedSize_app (a b : list Message) :
  renderedSize (a ++ b) = renderedSize a + renderedSize b.
Proof. unfold renderedSize. rewrite rendered_app. apply len_app. Qed.

Lemma renderedSize_cons (m : Message) (l : list Message) :
  renderedSize (m :: l) = len (messageText m) + renderedSize l.
Proof.
  rewrite messageText_speakerLine. unfold renderedSize, rendered. simpl.
  apply len_app.
Qed.

Lemma renderedSize_nonneg (l : list Message) : 0 <= renderedSize l.
Proof. apply len_nonneg. Qed.

Lemma renderedSize_positive (l : list Message) :
  l <> [] -> 0 < renderedSize l.
Proof.
  destruct l as [|m l]; [congruence|]. intros _.
  rewrite renderedSize_cons.
  pose proof (messageText_positive m).
  pose proof (renderedSize_nonneg l). lia.
Qed.

Lemma renderedSize_skipn (k : nat) (l : list Message) :
  renderedSize (skipn k l) <= renderedSize l.
Proof.
  rewrite <- (firstn_skipn k l) at 2. rewrite renderedSize_app.
  pose proof (renderedSize_nonneg (firstn k l)). lia.
Qed.

(** The accumulating loop of [paginate] builds the rendered blob. *)
Lemma fullTextOf_rendered (msgs : list Message) (acc : jsstring) :
  fullTextOf msgs acc = acc ++ rendered msgs.
Proof.
  revert acc; induction msgs as [|m msgs IH]; intros acc; simpl.
  - unfold rendered. simpl. now rewrite app_nil_r.
  - rewrite IH, messageText_speakerLine. unfold rendered. simpl.
    now rewrite <- app_assoc.
Qed.

End StringFacts.

(* ================================================================== *)
(** ** paginate: totality, page bound, exact cover *)

Section Paginate.

(** Inside the text, [substring] with a positive width is the next
    [pageSize] characters, or what is left of the text. *)
Lemma substring_page (fullText : jsstring) (startIndex size : Z) :
  0 <= startIndex < len fullText -> 0 < size ->
  substring fullText startIndex (startIndex + size)
  = firstn (Z.to_nat size) (skipn (Z.to_nat startIndex) fullText).
Proof.
  intros Hs Hp. unfold substring, clamp.
  destruct (Z.le_gt_cases (startIndex + size) (len fullText)) as [Hin|Hout].
  - replace (Z.min (Z.max 0 (Z.min startIndex (len fullText)))
               (Z.max 0 (Z.min (startIndex + size) (len fullText))))
      with startIndex by lia.
    replace (Z.max (Z.max 0 (Z.min startIndex (len fullText)))
               (Z.max 0 (Z.min (startIndex + size) (len fullText))) - startIndex)
      with size by lia.
    reflexivity.
  - replace (Z.min (Z.max 0 (Z.min startIndex (len fullText)))
               (Z.max 0 (Z.min (startIndex + size) (len fullText))))
      with startIndex by lia.
    replace (Z.max (Z.max 0 (Z.min startIndex (len fullText)))
               (Z.max 0 (Z.min (startIndex + size) (len fullText))) - startIndex)
      with (len fullText - startIndex) by lia.
    rewrite !firstn_all2; trivial; rewrite length_skipn; unfold len in *; lia.
Qed.

Lemma substring_page_length (fullText : jsstring) (startIndex size : Z) :
  0 <= startIndex < len fullText -> 0 < size ->
  len (substring fullText startIndex (startIndex + size)) <= size.
Proof.
  intros Hs Hp. rewrite substring_page by assumption.
  unfold len. rewrite length_firstn. lia.
Qed.

(** With a positive page size the loop stops within [fuel] iterations as
    soon as [fuel] exceeds the characters still to cut, and it has cut
    exactly those characters into pages no longer than [pageSize]. *)
Lemma paginate_loop_enough (fuel : nat) :
  forall (fullText : jsstring) (size startIndex : Z) (pages : list jsstring),
    0 < size -> 0 <= startIndex ->
    Z.max 0 (len fullText - startIndex) < Z.of_nat fuel ->
    exists cut,
      paginate_loop fuel fullText size startIndex pages = Some (pages ++ cut)
      /\ concat cut = skipn (Z.to_nat startIndex) fullText
      /\ Forall (fun p => len p <= size) cut.
Proof.
  induction fuel as [|fuel IH]; intros fullText size startIndex pages Hp Hs Hf.
  - exfalso. simpl in Hf. lia.
  - simpl. destruct (Z.ltb_spec startIndex (len fullText)) as [Hlt|Hge].
    + destruct (IH fullText size (startIndex + size)
                  (pages ++ [substring fullText startIndex (startIndex + size)]))
        as (cut & Hrun & Hcat & Hall); try lia.
      exists (substring fullText startIndex (startIndex + size) :: cut).
      split; [|split].
      * rewrite Hrun, <- app_assoc. reflexivity.
      * simpl. rewrite Hcat, substring_page by lia.
        replace (Z.to_nat (startIndex + size))
          with (Z.to_nat size + Z.to_nat startIndex)%nat by lia.
        rewrite <- skipn_skipn. apply firstn_skipn.
      * constructor; [apply substring_page_length; lia | exact Hall].
    + exists []. split; [now rewrite app_nil_r|]. split; [|constructor].
      simpl. symmetry. apply skipn_all2. unfold len in Hge. lia.
Qed.

(** More fuel does not change a finished loop. *)
Lemma paginate_loop_more_fuel (fuel : nat) :
  forall fullText size startIndex pages result (fuel' : nat),
    paginate_loop fuel fullText size startIndex pages = Some result ->
    (fuel <= fuel')%nat ->
    paginate_loop fuel' fullText size startIndex pages = Some result.
Proof.
  induction fuel as [|fuel IH]; intros fullText size startIndex pages result
    fuel' Hrun Hle; [discriminate|].
  destruct fuel' as [|fuel']; [lia|].
  simpl in *. destruct (startIndex <? len fullText).
  - apply (IH _ _ _ _ _ fuel' Hrun). lia.
  - exact Hrun.
Qed.

(** With a page size that is not positive the loop never leaves a text it
    has entered: no amount of fuel gives a result. *)
Lemma paginate_loop_forever (fuel : nat) :
  forall fullText size startIndex pages,
    size <= 0 -> startIndex < len fullText ->
    paginate_loop fuel fullText size startIndex pages = None.
Proof.
  induction fuel as [|fuel IH]; intros fullText size startIndex pages Hp Hs;
    [reflexivity|].
  simpl. destruct (Z.ltb_spec startIndex (len fullText)); [|lia].
  apply IH; lia.
Qed.

Lemma paginate_more_fuel (fuel fuel' : nat) msgs size pages :
  paginate fuel msgs size = Some pages -> (fuel <= fuel')%nat ->
  paginate fuel' msgs size = Some pages.
Proof.
  unfold paginate. destruct (len (fullTextOf msgs []) =? 0); [auto|].
  intros. eapply paginate_loop_more_fuel; eauto.
Qed.

Lemma paginate_diverges (fuel : nat) msgs size :
  msgs <> [] -> size <= 0 -> paginate fuel msgs size = None.
Proof.
  intros Hne Hp. unfold paginate. rewrite fullTextOf_rendered. simpl.
  pose proof (renderedSize_positive msgs Hne) as Hpos.
  unfold renderedSize in Hpos.
  destruct (Z.eqb_spec (len (rendered msgs)) 0); [lia|].
  apply paginate_loop_forever; lia.
Qed.

(** With a positive page size [paginate] returns, the same pages for
    every fuel beyond the length of the rendered blob. *)
Lemma paginate_returns (msgs : list Message) (size : Z) :
  0 < size ->
  exists pages,
    forall fuel, (List.length (rendered msgs) < fuel)%nat ->
                 paginate fuel msgs size = Some pages.
Proof.
  intros Hp. unfold paginate. rewrite fullTextOf_rendered. simpl.
  destruct (len (rendered msgs) =? 0); [exists []; reflexivity|].
  destruct (paginate_loop_enough (S (List.length (rendered msgs)))
              (rendered msgs) size 0 [] Hp (Z.le_refl 0))
    as (cut & Hrun & _); [unfold len; lia|].
  exists cut. intros fuel Hfuel.
  eapply paginate_loop_more_fuel; [exact Hrun | lia].
Qed.

(** C3.  For every message list and every positive page size, [paginate]
    returns (any fuel beyond the length of the rendered blob is enough,
    and the result does not depend on it); every page has at most
    [pageSize] characters; the pages concatenated in order are exactly the
    rendered blob; and an empty blob gives no page at all. *)
Theorem paginate_total_bounded_exact (msgs : list Message) (size : Z) :
  0 < size ->
  exists pages,
    (forall fuel, (List.length (rendered msgs) < fuel)%nat ->
                  paginate fuel msgs size = Some pages)
    /\ Forall (fun p => len p <= size) pages
    /\ concat pages = rendered msgs
    /\ (rendered msgs = [] -> pages = []).
Proof.
  intros Hp. unfold paginate. rewrite fullTextOf_rendered. simpl.
  destruct (Z.eqb_spec (len (rendered msgs)) 0) as [Hz|Hnz].
  - exists []. assert (rendered msgs = []) as ->
      by (destruct (rendered msgs); [reflexivity | discriminate]).
    repeat split; auto.
  - destruct (paginate_loop_enough (S (List.length (rendered msgs)))
                (rendered msgs) size 0 [] Hp (Z.le_refl 0))
      as (cut & Hrun & Hcat & Hall); [unfold len; lia|].
    exists cut. repeat split; auto.
    + intros fuel Hfuel. eapply paginate_loop_more_fuel; [exact Hrun | lia].
    + intros Hnil. rewrite Hnil in Hnz. now elim Hnz.
Qed.

End Paginate.

(* ================================================================== *)
(** ** The window splitter *)

Section Window.

Variable limit : Z.

(** Invariant of the backward scan, started at the end of [front] with
    [count] characters already taken: it stops at a cut of [front] into
    [history ++ present]; if anything was taken, the running total is
    within the limit; and the message just before the cut, if any, would
    have exceeded it. *)
Lemma scan_present_cut (front : list Message) :
  forall count : Z,
  exists history present,
    front = history ++ present
    /\ scan_present limit (rev front) count (List.length front)
       = List.length history
    /\ (present <> [] -> count + renderedSize present <= limit)
    /\ (forall before m, history = before ++ [m] ->
          count + renderedSize present + len (messageText m) > limit).
Proof.
  induction front as [|m front IH] using rev_ind; intros count.
  - exists [], []. simpl. repeat split; try congruence.
    intros before m H. now destruct before.
  - rewrite rev_app_distr. simpl.
    destruct (Z.gtb_spec (count + len (messageText m)) limit) as [Hover|Hfits].
    + exists (front ++ [m]), []. rewrite app_nil_r.
      repeat split; try congruence.
      intros before m' H. apply app_inj_tail in H as [_ <-].
      change (renderedSize []) with 0. lia.
    + rewrite length_rev.
      destruct (IH (count + len (messageText m)))
        as (history & present & Hcut & Hidx & Hin & Hout).
      exists history, (present ++ [m]). repeat split.
      * rewrite Hcut, <- app_assoc. reflexivity.
      * exact Hidx.
      * intros _. rewrite renderedSize_app, renderedSize_cons.
        change (renderedSize []) with 0.
        destruct present as [|p present].
        -- change (renderedSize []) with 0. lia.
        -- assert (p :: present <> []) as Hne by congruence.
           specialize (Hin Hne). lia.
      * intros before m' H. specialize (Hout before m' H).
        rewrite renderedSize_app, renderedSize_cons.
        change (renderedSize []) with 0. lia.
Qed.

(** The two windows cut the workable chat at one index. *)
Lemma windows_partition (workable : list Message) :
  workable = historyToSummarize limit workable ++ presentChat limit workable.
Proof.
  unfold historyToSummarize, presentChat. symmetry. apply firstn_skipn.
Qed.

Lemma windows_cut (workable : list Message) :
  (presentChat limit workable <> [] ->
     renderedSize (presentChat limit workable) <= limit)
  /\ (forall before m,
        historyToSummarize limit workable = before ++ [m] ->
        renderedSize (presentChat limit workable) + len (messageText m)
        > limit).
Proof.
  destruct (scan_present_cut workable 0)
    as (history & present & Hcut & Hidx & Hin & Hout).
  unfold historyToSummarize, presentChat, splitIndexOf.
  rewrite Hidx. subst workable.
  rewrite firstn_app, Nat.sub_diag, firstn_all, firstn_O, app_nil_r.
  rewrite skipn_app, Nat.sub_diag, skipn_all, skipn_O. simpl.
  split; [exact Hin | exact Hout].
Qed.

(** A cut with these two properties is the longest trailing run that
    fits. *)
Lemma longest_trailing_run (history present : list Message) :
  (present <> [] -> renderedSize present <= limit) ->
  (forall before m, history = before ++ [m] ->
     renderedSize present + len (messageText m) > limit) ->
  forall k : nat,
    (1 <= k <= List.length (history ++ present))%nat ->
    (renderedSize (skipn (List.length (history ++ present) - k)
                     (history ++ present)) <= limit
     <-> (k <= List.length present)%nat).
Proof.
  intros Hin Hout k [Hk1 Hk2]. rewrite length_app in *. rewrite skipn_app.
  destruct (Nat.le_gt_cases k (List.length present)) as [Hle|Hgt].
  - split; [intros _; exact Hle | intros _].
    rewrite skipn_all2 by lia. simpl.
    assert (present <> []) as Hne
      by (destruct present; simpl in *; [lia | congruence]).
    pose proof (renderedSize_skipn
      (List.length history + List.length present - k - List.length history)
      present).
    specialize (Hin Hne). lia.
  - split; [intros Hfit; exfalso | lia].
    destruct (exists_last (l := history)) as (before & m & ->).
    { destruct history; simpl in *; [lia | congruence]. }
    specialize (Hout before m eq_refl).
    rewrite length_app in *. simpl in *.
    replace (List.length before + 1 + List.length present - k
             - (List.length before + 1))%nat with 0%nat in Hfit by lia.
    rewrite skipn_O, renderedSize_app, skipn_app, renderedSize_app in Hfit.
    replace (List.length before + 1 + List.length present - k
             - List.length before)%nat with 0%nat in Hfit by lia.
    rewrite skipn_O in Hfit.
    rewrite renderedSize_cons in Hfit. change (renderedSize []) with 0 in Hfit.
    pose proof (renderedSize_nonneg
      (skipn (List.length before + 1 + List.length present - k) before)).
    lia.
Qed.

(** C2.  For every workable sequence and every threshold: [history] and
    [present] are a cut of the sequence at a message boundary (no message
    is split); [present], when it holds any message, renders to at most
    [presentSituationSize] characters; the last message of [history] is
    the one whose inclusion would exceed the threshold; and [present] is
    the longest such trailing run: a trailing run of [k >= 1] messages
    fits under the threshold exactly when [k <= length present]. *)
Theorem present_window_maximal (workable : list Message) :
  let history := historyToSummarize limit workable in
  let present := presentChat limit workable in
  workable = history ++ present
  /\ (present <> [] -> renderedSize present <= limit)
  /\ (0 <= limit -> renderedSize present <= limit)
  /\ (forall before m, history = before ++ [m] ->
        renderedSize (m :: present) > limit)
  /\ (forall k : nat,
        (1 <= k <= List.length workable)%nat ->
        (renderedSize (skipn (List.length workable - k) workable) <= limit
         <-> (k <= List.length present)%nat)).
Proof.
  intros history present.
  pose proof (windows_partition workable) as Hcut.
  destruct (windows_cut workable) as [Hin Hout].
  fold history present in Hcut, Hin, Hout.
  split; [exact Hcut|]. split; [exact Hin|]. split; [|split].
  - intros Hlim. destruct present as [|p present'] eqn:E.
    + exact Hlim.
    + apply Hin. congruence.
  - intros before m H. rewrite renderedSize_cons.
    specialize (Hout before m H). lia.
  - pose proof (longest_trailing_run history present Hin Hout) as Hmax.
    rewrite <- Hcut in Hmax. exact Hmax.
Qed.

End Window.

(* ================================================================== *)
(** ** summarizePage *)

Section SummarizePage.

Variable env : Env.
Variable settings : Settings.

(** The [try] block: it sends exactly one request; when it completes
    normally it returns the trimmed answer of the endpoint, or [null]
    after a toast and a console error; when it throws, the exchange had
    no usable answer and nothing was reported yet. *)
Lemma summarizePage_try_cases (prompt : jsstring) (w : World) :
  exists errs,
    appends w (snd (summarizePage_try env settings prompt w))
      (Fetch (requestOf settings prompt) :: errs)
    /\ forallb (fun e => negb (is_fetch e)) errs = true
    /\ match fst (summarizePage_try env settings prompt w) with
       | Normal r =>
           r = option_map trim
                 (answer (remote env (net_calls w) (requestOf settings prompt)))
           /\ (r = None ->
               existsb is_toast_error errs = true
               /\ existsb is_console_error errs = true)
       | Throw _ =>
           answer (remote env (net_calls w) (requestOf settings prompt)) = None
           /\ errs = []
       end.
Proof.
  unfold summarizePage_try, bind, fetch, answer.
  destruct (remote env (net_calls w) (requestOf settings prompt))
    as [response|error]; simpl; [|try_leaf].
  destruct (ok response); simpl.
  - destruct (json response) as [e|data]; simpl; [try_leaf|].
    unfold content_of.
    destruct data; simpl; try (try_leaf; fail).
    destruct (falsy (assoc (lit "choices") props)
              || is_zero (get_length (assoc (lit "choices") props)));
      simpl; [try_leaf|].
    destruct (get_first (assoc (lit "choices") props)) as [| | | | | |first];
      simpl; try (try_leaf; fail).
    destruct (assoc (lit "message") first) as [| | | | | |message];
      simpl; try (try_leaf; fail).
    destruct (assoc (lit "content") message); simpl; try_leaf.
  - destruct (text response) as [e|errorText]; simpl; try_leaf.
Qed.

(** What one call does, whatever the input: it always comes back with a
    value; it leaves [chat] and [dynamicMemory] alone; it makes no network
    call without a credential and exactly one with it; with a credential
    it returns the trimmed answer of the endpoint when there is one and
    [null] otherwise; and every [null] comes with a toast and a console
    error. *)
Lemma summarizePage_cases (page presentSituation : jsstring) (w : World) :
  exists new,
    appends w (snd (summarizePage env page presentSituation settings w)) new
    /\ (apiKey settings = [] ->
        fst (summarizePage env page presentSituation settings w) = None
        /\ filter is_fetch new = [])
    /\ (apiKey settings <> [] ->
        fst (summarizePage env page presentSituation settings w)
        = option_map trim
            (answer (remote env (net_calls w)
                       (pageRequest settings page presentSituation)))
        /\ filter is_fetch new
           = [Fetch (pageRequest settings page presentSituation)])
    /\ (fst (summarizePage env page presentSituation settings w) = None ->
        existsb is_toast_error new = true
        /\ existsb is_console_error new = true).
Proof.
  unfold summarizePage, pageRequest.
  destruct (apiKey settings) as [|c key] eqn:Hkey.
  - eexists; split; [solve_appends|]. simpl. repeat split; congruence.
  - destruct (summarizePage_try_cases (promptOf page presentSituation) w)
      as (errs & Happ & Hnofetch & Hres).
    assert (filter is_fetch errs = []) as Hfilter.
    { clear -Hnofetch. induction errs as [|e errs IH]; [reflexivity|].
      simpl in *. apply andb_true_iff in Hnofetch as [He Hrest].
      destruct (is_fetch e); [discriminate | auto]. }
    destruct (summarizePage_try env settings (promptOf page presentSituation) w)
      as [[r|error] w'] eqn:Htry; simpl in *.
    + destruct Hres as [Hr Hnone].
      exists (Fetch (requestOf settings (promptOf page presentSituation)) :: errs).
      split; [exact Happ|]. split; [congruence|]. split.
      * intros _. simpl. rewrite Hfilter. auto.
      * intros Hn. simpl. apply Hnone. exact Hn.
    + destruct Hres as [Hans ->].
      destruct Happ as (Hc & Hd & He).
      eexists. split.
      * unfold appends. simpl. rewrite Hc, Hd, He.
        repeat split. rewrite <- !app_assoc. simpl. reflexivity.
      * simpl. rewrite Hans. repeat split; congruence.
Qed.

End SummarizePage.

(* ================================================================== *)
(** ** The summarization loop *)

Section Loop.

Variable env : Env.
Variable settings : Settings.
Variable presentSituationText : jsstring.

Lemma push_summary_app (acc : list jsstring) (summary : option jsstring) :
  push_summary acc summary = acc ++ push_summary [] summary.
Proof.
  destruct summary as [[|c s]|]; simpl; now rewrite ?app_nil_r.
Qed.

Lemma net_calls_appends (w w' : World) (new : list Event) :
  appends w w' new ->
  net_calls w' = (net_calls w + List.length (filter is_fetch new))%nat.
Proof.
  intros (_ & _ & He). unfold net_calls.
  now rewrite He, filter_app, length_app.
Qed.

Lemma appends_trans (w w' w'' : World) (a b : list Event) :
  appends w w' a -> appends w' w'' b -> appends w w'' (a ++ b).
Proof.
  intros (C1 & D1 & E1) (C2 & D2 & E2). repeat split; try congruence.
  rewrite E2, E1. now rewrite app_assoc.
Qed.

(** What the [if (summary)] of the loop pushes is what the specification
    keeps: the returned strings that are not empty. *)
Lemma nonEmptyDigests_cons (summary : option jsstring)
    (rest : list (option jsstring)) :
  nonEmptyDigests (summary :: rest)
  = push_summary [] summary ++ nonEmptyDigests rest.
Proof. destruct summary as [[|c s]|]; reflexivity. Qed.

(** The collected list is the non-empty summaries, in page order. *)
Lemma summarize_loop_digests (pages : list jsstring) :
  forall (acc : list jsstring) (w : World),
    fst (summarize_loop env settings presentSituationText pages acc w)
    = acc ++ nonEmptyDigests
               (page_summaries env settings presentSituationText pages w).
Proof.
  induction pages as [|page pages IH]; intros acc w; simpl.
  - now rewrite app_nil_r.
  - destruct (summarizePage env page presentSituationText settings w)
      as [summary w'].
    rewrite IH. cbn [fst]. rewrite nonEmptyDigests_cons.
    rewrite (push_summary_app acc), <- app_assoc. reflexivity.
Qed.

(** The loop only adds events; without a credential none is a request. *)
Lemma summarize_loop_appends (pages : list jsstring) :
  forall (acc : list jsstring) (w : World),
    exists new,
      appends w
        (snd (summarize_loop env settings presentSituationText pages acc w))
        new
      /\ (apiKey settings = [] -> filter is_fetch new = []).
Proof.
  induction pages as [|page pages IH]; intros acc w; simpl.
  - exists []. split; [|reflexivity].
    repeat split. simpl. now rewrite app_nil_r.
  - destruct (summarizePage_cases env settings page presentSituationText w)
      as (new1 & Happ1 & Hnokey & _).
    destruct (summarizePage env page presentSituationText settings w)
      as [summary w']. simpl in *.
    destruct (IH (push_summary acc summary) w') as (new2 & Happ2 & Hno2).
    exists (new1 ++ new2). split.
    + eapply appends_trans; eauto.
    + intros Hkey. rewrite filter_app, Hno2 by assumption.
      destruct (Hnokey Hkey) as [_ ->]. reflexivity.
Qed.

(** The returned values depend on the world only through the number of
    requests already made. *)
Lemma page_summaries_from (pages : list jsstring) :
  forall w : World,
    page_summaries env settings presentSituationText pages w
    = summariesFrom env settings presentSituationText (net_calls w) pages.
Proof.
  induction pages as [|page pages IH]; intros w; simpl; [reflexivity|].
  destruct (summarizePage_cases env settings page presentSituationText w)
    as (new & Happ & Hnokey & Hkey & _).
  destruct (summarizePage env page presentSituationText settings w)
    as [summary w']. simpl in *.
  rewrite IH. unfold summaryAt.
  destruct (apiKey settings) as [|c key] eqn:E.
  - destruct (Hnokey eq_refl) as [-> Hnone]. f_equal.
    rewrite (net_calls_appends _ _ _ Happ), Hnone. simpl.
    clear - E. generalize (net_calls w + 0)%nat, (S (net_calls w)).
    induction pages as [|p pages IHp]; intros a b; simpl; [reflexivity|].
    unfold summaryAt. rewrite E. f_equal. apply IHp.
  - destruct Hkey as [-> Hone]; [congruence|]. f_equal.
    rewrite (net_calls_appends _ _ _ Happ), Hone. simpl.
    now rewrite Nat.add_1_r.
Qed.

Lemma trimStart_blank (s : jsstring) : blank s -> trimStart s = [].
Proof.
  induction 1 as [|c s Hc _ IH]; simpl; [reflexivity|].
  simpl in Hc. rewrite Hc. exact IH.
Qed.

(** A blank answer is trimmed to the empty string. *)
Lemma trim_blank (s : jsstring) : blank s -> trim s = [].
Proof. intros H. unfold trim. now rewrite (trimStart_blank s H). Qed.

(** An unproductive call contributes nothing to the collected list. *)
Lemma unproductive_summaryAt (n : nat) (page : jsstring) :
  unproductive_call env settings presentSituationText n page ->
  push_summary [] (summaryAt env settings presentSituationText n page) = [].
Proof.
  unfold unproductive_call, summaryAt, fails_or_blank.
  intros [Hkey|Hout].
  - now rewrite Hkey.
  - destruct (apiKey settings); [reflexivity|].
    destruct (answer _) as [s|]; simpl; [|reflexivity].
    now rewrite trim_blank.
Qed.

Lemma unproductive_summaries (pages : list jsstring) :
  forall n : nat,
    (forall k page, nth_error pages k = Some page ->
       unproductive_call env settings presentSituationText (n + k) page) ->
    nonEmptyDigests (summariesFrom env settings presentSituationText n pages)
    = [].
Proof.
  induction pages as [|page pages IH]; intros n H; simpl; [reflexivity|].
  rewrite nonEmptyDigests_cons, unproductive_summaryAt.
  - simpl. apply IH. intros k p Hk.
    replace (S n + k)%nat with (n + S k)%nat by lia. now apply H.
  - specialize (H 0%nat page eq_refl). now rewrite Nat.add_0_r in H.
Qed.

End Loop.

(* ================================================================== *)
(** ** The entry point *)

Section Interceptor.

Variable env : Env.
Variable settings : Settings.

Lemma preamble_not_start (m : Message) :
  preamble_message m -> starts_chat m = false.
Proof.
  intros [Hu [Hs|Hn]]; unfold starts_chat; rewrite Hu; simpl.
  - now rewrite Hs.
  - rewrite Hn. replace (JsString.eqb (lit "System") (lit "System")) with true
      by reflexivity.
    simpl. apply andb_false_r.
Qed.

(** On a chat made of preamble messages only, the first loop takes its
    [return]. *)
Lemma scan_start_all_preamble (msgs : list Message) :
  Forall preamble_message msgs -> msgs <> [] ->
  forall i, scan_start msgs i = None.
Proof.
  induction 1 as [|m msgs Hm Hrest IH]; intros Hne i; [congruence|].
  simpl. rewrite (preamble_not_start m Hm).
  destruct msgs as [|m' msgs']; [reflexivity|].
  apply IH. congruence.
Qed.

Lemma net_calls_log (msg : jsstring) (w : World) :
  net_calls (emit (ConsoleLog msg) w) = net_calls w.
Proof.
  unfold net_calls. simpl. rewrite filter_app. simpl. now rewrite app_nil_r.
Qed.

(** A run that does not reach the summarization stage returns, whatever
    the fuel, having at most written to the console. *)
Lemma interceptor_early_return (fuel : nat) (w : World) :
  reaches_summarization settings (chat w) = false ->
  exists w' new,
    dynamicMemoryInterceptor fuel env settings w = Some w'
    /\ appends w w' new
    /\ filter is_fetch new = [].
Proof.
  unfold reaches_summarization, dynamicMemoryInterceptor, workableChat,
    chatStartIndex.
  intros Hreach.
  destruct (enabled settings); cbn [negb orb andb] in *;
    [|exists w, []; repeat split; simpl; now rewrite ?app_nil_r].
  destruct (Z.ltb_spec (Z.of_nat (List.length (chat w))) 3) as [Hshort|Hlong].
  { exists w, []. repeat split; simpl; now rewrite ?app_nil_r. }
  assert ((3 <=? List.length (chat w))%nat = true) as Hlen
    by (apply Nat.leb_le; lia).
  rewrite Hlen in Hreach. cbn [andb] in Hreach.
  change (chat (emit (ConsoleLog Msg.triggered) w)) with (chat w).
  destruct (scan_start (chat w) 0) as [i|].
  - cbn [andb] in Hreach. apply negb_false_iff in Hreach. rewrite Hreach.
    eexists _, _. split; [reflexivity|]. split; [solve_appends|reflexivity].
  - eexists _, _. split; [reflexivity|]. split; [solve_appends|reflexivity].
Qed.

(** A run that reaches the summarization stage and whose [paginate]
    returns [pages]: the snapshot becomes the collected digests; the chat
    is rebuilt when there is a digest and left alone otherwise. *)
Lemma interceptor_summarizes (fuel : nat) (w : World) (pages : list jsstring) :
  reaches_summarization settings (chat w) = true ->
  paginate fuel (historyOf settings (chat w)) (pageSize settings) = Some pages ->
  exists w' new,
    dynamicMemoryInterceptor fuel env settings w = Some w'
    /\ dynamicMemory w' = digestsOfRun env settings w pages
    /\ chat w'
       = match digestsOfRun env settings w pages with
         | [] => chat w
         | _ :: _ =>
             initialSystemMessages (chat w)
             ++ [memoryMessage env (digestsOfRun env settings w pages)]
             ++ presentOf settings (chat w)
         end
    /\ events w' = events w ++ new
    /\ (apiKey settings = [] -> filter is_fetch new = []).
Proof.
  unfold digestsOfRun, reaches_summarization, dynamicMemoryInterceptor,
    historyOf, presentOf, initialSystemMessages, workableChat, chatStartIndex.
  intros Hreach Hpages.
  apply andb_true_iff in Hreach as [Hreach Hhist].
  apply andb_true_iff in Hreach as [Hreach Hscan].
  apply andb_true_iff in Hreach as [Hen Hlen].
  rewrite Hen. cbn [negb orb].
  apply Nat.leb_le in Hlen.
  destruct (Z.ltb_spec (Z.of_nat (List.length (chat w))) 3) as [Hshort|_];
    [lia|].
  change (chat (emit (ConsoleLog Msg.triggered) w)) with (chat w).
  destruct (scan_start (chat w) 0) as [i|]; [|discriminate].
  apply negb_true_iff in Hhist. rewrite Hhist, Hpages.
  set (present := presentChat (presentSituationSize settings)
                    (skipn i (chat w))) in *.
  set (w1 := emit (ConsoleLog Msg.triggered) w).
  pose proof (summarize_loop_digests env settings
                (presentSituationTextOf present) pages [] w1) as Hdig.
  destruct (summarize_loop_appends env settings
              (presentSituationTextOf present) pages [] w1)
    as (new & (Hc & Hd & He) & Hnokey).
  destruct (summarize_loop env settings (presentSituationTextOf present)
              pages [] w1) as [summarizedPages w2].
  cbn [fst snd app] in Hdig, Hc, Hd, He. simpl in Hc, Hd, He.
  rewrite page_summaries_from in Hdig. unfold w1 in Hdig.
  rewrite net_calls_log in Hdig. rewrite <- Hdig.
  destruct summarizedPages as [|d ds]; simpl.
  - eexists _, (ConsoleLog Msg.triggered :: new).
    split; [reflexivity|]. simpl. repeat split; auto.
    rewrite He, <- app_assoc. reflexivity.
  - eexists _, (ConsoleLog Msg.triggered :: new ++ [ConsoleLog Msg.reconstructed]).
    split; [reflexivity|]. simpl. repeat split; auto.
    + rewrite He, <- !app_assoc. reflexivity.
    + intros Hkey. rewrite filter_app, (Hnokey Hkey). reflexivity.
Qed.

(** While [paginate] has not returned, neither has the entry point. *)
Lemma interceptor_out_of_fuel (fuel : nat) (w : World) :
  reaches_summarization settings (chat w) = true ->
  paginate fuel (historyOf settings (chat w)) (pageSize settings) = None ->
  dynamicMemoryInterceptor fuel env settings w = None.
Proof.
  unfold reaches_summarization, dynamicMemoryInterceptor, historyOf,
    workableChat, chatStartIndex.
  intros Hreach Hpages.
  apply andb_true_iff in Hreach as [Hreach Hhist].
  apply andb_true_iff in Hreach as [Hreach Hscan].
  apply andb_true_iff in Hreach as [Hen Hlen].
  rewrite Hen. cbn [negb orb].
  apply Nat.leb_le in Hlen.
  destruct (Z.ltb_spec (Z.of_nat (List.length (chat w))) 3) as [Hshort|_];
    [lia|].
  change (chat (emit (ConsoleLog Msg.triggered) w)) with (chat w).
  destruct (scan_start (chat w) 0) as [i|]; [|discriminate].
  apply negb_true_iff in Hhist. rewrite Hhist, Hpages. reflexivity.
Qed.

(** More fuel does not change a finished run. *)
Lemma interceptor_more_fuel (fuel fuel' : nat) (w w' : World) :
  dynamicMemoryInterceptor fuel env settings w = Some w' ->
  (fuel <= fuel')%nat ->
  dynamicMemoryInterceptor fuel' env settings w = Some w'.
Proof.
  unfold dynamicMemoryInterceptor. intros Hrun Hle.
  destruct (negb (enabled settings)
            || (Z.of_nat (List.length (chat w)) <? 3)); [exact Hrun|].
  destruct (scan_start _ 0) as [i|]; [|exact Hrun].
  destruct (Nat.eqb _ 0); [exact Hrun|].
  destruct (paginate fuel _ _) as [pages|] eqn:Hpages; [|discriminate].
  rewrite (paginate_more_fuel _ _ _ _ _ Hpages Hle). exact Hrun.
Qed.

(** With a positive page size, enough fuel gives the pages of the history. *)
Lemma paginate_history (msgs : list Message) (fuel : nat) :
  0 < pageSize settings -> enoughFuel settings msgs fuel ->
  paginate fuel (historyOf settings msgs) (pageSize settings)
  = Some (pagesOfHistory settings msgs).
Proof.
  intros Hsize Hfuel.
  destruct (paginate_returns (historyOf settings msgs) (pageSize settings) Hsize)
    as (pages & Hrun).
  unfold pagesOfHistory. rewrite (Hrun _ (Nat.lt_succ_diag_r _)).
  apply Hrun. exact Hfuel.
Qed.

(** A run that reaches the summarization stage with a positive page size
    returns, the same world for every sufficient fuel: the snapshot is the
    digests of the run; the chat is rebuilt when there is a digest and left
    alone otherwise. *)
Lemma interceptor_summarizes_total (w : World) :
  reaches_summarization settings (chat w) = true ->
  0 < pageSize settings ->
  exists w' new,
    (forall fuel, enoughFuel settings (chat w) fuel ->
                  dynamicMemoryInterceptor fuel env settings w = Some w')
    /\ dynamicMemory w' = runDigests env settings w
    /\ chat w'
       = match runDigests env settings w with
         | [] => chat w
         | _ :: _ =>
             initialSystemMessages (chat w)
             ++ [memoryMessage env (runDigests env settings w)]
             ++ presentOf settings (chat w)
         end
    /\ events w' = events w ++ new
    /\ (apiKey settings = [] -> filter is_fetch new = []).
Proof.
  intros Hreach Hsize.
  destruct (interceptor_summarizes
              (S (List.length (rendered (historyOf settings (chat w)))))
              w (pagesOfHistory settings (chat w)) Hreach)
    as (w' & new & Hrun & Hrest).
  { apply paginate_history; [exact Hsize | apply Nat.lt_succ_diag_r]. }
  exists w', new. split; [|exact Hrest].
  intros fuel Hfuel. apply (interceptor_more_fuel _ _ _ _ Hrun).
  unfold enoughFuel in Hfuel. lia.
Qed.

(** With a positive page size every run returns, and the same world for
    every sufficient fuel. *)
Lemma interceptor_returns (w : World) :
  0 < pageSize settings ->
  exists w',
    forall fuel, enoughFuel settings (chat w) fuel ->
                 dynamicMemoryInterceptor fuel env settings w = Some w'.
Proof.
  intros Hsize.
  destruct (reaches_summarization settings (chat w)) eqn:Hreach.
  - destruct (interceptor_summarizes_total w Hreach Hsize)
      as (w' & new & Hrun & _).
    exists w'. exact Hrun.
  - destruct (interceptor_early_return 0 w Hreach) as (w' & new & Hw' & _).
    exists w'. intros fuel _.
    apply (interceptor_more_fuel _ _ _ _ Hw'). lia.
Qed.

End Interceptor.

(* ================================================================== *)
(** ** Properties of summarizePage *)

Section SummarizePageClaims.

Variable env : Env.
Variable settings : Settings.

Lemma no_choices_no_content (data : JsVal) :
  no_choices data -> content_of data = None.
Proof.
  intros (props & -> & [H|H]); unfold content_of; rewrite H; reflexivity.
Qed.

(** C7.  For every input [summarizePage] comes back with a value (the
    [catch] turns every throw of the [try] block into [null]), leaving the
    chat and the snapshot alone, and it returns [null] in every failure
    case: without a credential (and then no network call is made), when
    the transport rejects, on a non-success status, and on a body whose
    choice list is missing or empty; with a credential its value is the
    trimmed answer of the endpoint, [null] when there is none.  Every [null]
    it returns comes with a toast error and a console error. *)
Theorem summarizePage_failures_are_null (page presentSituation : jsstring)
    (w : World) :
  let result := fst (summarizePage env page presentSituation settings w) in
  let w' := snd (summarizePage env page presentSituation settings w) in
  let outcome :=
    remote env (net_calls w) (pageRequest settings page presentSituation) in
  exists new,
    appends w w' new
    /\ (apiKey settings = [] -> result = None /\ filter is_fetch new = [])
    /\ (apiKey settings <> [] -> result = option_map trim (answer outcome))
    /\ (forall error, outcome = Rejects error -> result = None)
    /\ (forall response,
          outcome = Resolves response -> ok response = false ->
          result = None)
    /\ (forall response data,
          outcome = Resolves response -> json response = inr data ->
          no_choices data -> result = None)
    /\ (result = None ->
        existsb is_toast_error new = true
        /\ existsb is_console_error new = true).
Proof.
  intros result w' outcome.
  destruct (summarizePage_cases env settings page presentSituation w)
    as (new & Happ & Hnokey & Hkey & Hreport).
  fold result w' outcome in Happ, Hnokey, Hkey, Hreport.
  exists new. split; [exact Happ|]. split; [exact Hnokey|].
  assert (answer outcome = None -> result = None) as Hfail.
  { intros Hans. destruct (apiKey settings) as [|c key] eqn:E.
    - now destruct (Hnokey eq_refl).
    - destruct Hkey as [Hr _]; [congruence|]. rewrite Hr, Hans. reflexivity. }
  split; [intros Hk; now destruct (Hkey Hk)|].
  split; [|split; [|split]]; try exact Hreport.
  - intros error Ho. apply Hfail. now rewrite Ho.
  - intros response Ho Hok. apply Hfail. rewrite Ho. simpl. now rewrite Hok.
  - intros response data Ho Hjson Hshape. apply Hfail. rewrite Ho. simpl.
    rewrite Hjson, (no_choices_no_content data Hshape).
    now destruct (ok response).
Qed.

End SummarizePageClaims.

(* ================================================================== *)
(** ** Properties of the entry point *)

Section InterceptorClaims.

Variable env : Env.
Variable settings : Settings.

Lemma chat_windows (msgs : list Message) :
  msgs = initialSystemMessages msgs
         ++ historyOf settings msgs ++ presentOf settings msgs.
Proof.
  unfold initialSystemMessages, historyOf, presentOf.
  rewrite <- windows_partition. unfold workableChat.
  symmetry. apply firstn_skipn.
Qed.

(** C10.  A chat of fewer than three messages: the entry point returns at
    once, for any fuel, any endpoint and any settings, and the world
    (chat, snapshot, trace of effects) is exactly what it was. *)
Theorem short_chat_untouched (fuel : nat) (w : World) :
  (List.length (chat w) < 3)%nat ->
  dynamicMemoryInterceptor fuel env settings w = Some w.
Proof.
  intros Hshort. unfold dynamicMemoryInterceptor.
  destruct (Z.ltb_spec (Z.of_nat (List.length (chat w))) 3); [|lia].
  now rewrite orb_true_r.
Qed.

(** C8.  A chat made of preamble messages only: the run returns with the
    chat and the snapshot as they were and without a network call. *)
Theorem all_preamble_untouched (fuel : nat) (w : World) :
  Forall preamble_message (chat w) ->
  exists w',
    dynamicMemoryInterceptor fuel env settings w = Some w'
    /\ chat w' = chat w
    /\ dynamicMemory w' = dynamicMemory w
    /\ filter is_fetch (events w') = filter is_fetch (events w).
Proof.
  intros Hall.
  assert (reaches_summarization settings (chat w) = false) as Hreach.
  { unfold reaches_summarization.
    destruct (chat w) as [|m msgs] eqn:E.
    - simpl. now rewrite andb_false_r.
    - rewrite (scan_start_all_preamble (m :: msgs) Hall) by congruence.
      now rewrite andb_false_r. }
  destruct (interceptor_early_return env settings fuel w Hreach)
    as (w' & new & Hrun & (Hc & Hd & He) & Hnet).
  exists w'. repeat split; auto.
  rewrite He, filter_app, Hnet. apply app_nil_r.
Qed.

(** C9.  A run that reaches the summarization stage (with a positive
    page size, so that [paginate] returns) overwrites the snapshot with the
    non-empty values its [summarizePage] calls returned, in page order,
    whatever the snapshot held before and also when that list is empty. *)
Theorem snapshot_overwritten (w : World) :
  reaches_summarization settings (chat w) = true ->
  0 < pageSize settings ->
  exists w',
    (forall fuel, enoughFuel settings (chat w) fuel ->
                  dynamicMemoryInterceptor fuel env settings w = Some w')
    /\ dynamicMemory w'
       = nonEmptyDigests
           (page_summaries env settings
              (presentSituationTextOf (presentOf settings (chat w)))
              (pagesOfHistory settings (chat w))
              (emit (ConsoleLog Msg.triggered) w))
    /\ dynamicMemory w' = runDigests env settings w.
Proof.
  intros Hreach Hsize.
  destruct (interceptor_summarizes_total env settings w Hreach Hsize)
    as (w' & new & Hrun & Hmem & _).
  exists w'. split; [exact Hrun|]. split; [|exact Hmem].
  rewrite Hmem, page_summaries_from, net_calls_log. reflexivity.
Qed.


(** C4.  A run that changes the chat: the old chat is preamble, history,
    present; the new one is the same preamble, one summary message, the
    same present window, each message as it was and in the same order; its
    length is [len preamble + 1 + len present], and the digest list is not
    empty. *)
Theorem mutation_keeps_windows (fuel : nat) (w w' : World) :
  dynamicMemoryInterceptor fuel env settings w = Some w' ->
  chat w' <> chat w ->
  let preamble := initialSystemMessages (chat w) in
  let history := historyOf settings (chat w) in
  let present := presentOf settings (chat w) in
  chat w = preamble ++ history ++ present
  /\ dynamicMemory w' <> []
  /\ (exists summary, chat w' = preamble ++ [summary] ++ present)
  /\ List.length (chat w')
     = (List.length preamble + 1 + List.length present)%nat.
Proof.
  intros Hrun Hchanged preamble history present.
  split; [apply chat_windows|].
  destruct (reaches_summarization settings (chat w)) eqn:Hreach.
  - destruct (paginate fuel (historyOf settings (chat w)) (pageSize settings))
      as [pages|] eqn:Hpages.
    + destruct (interceptor_summarizes env settings fuel w pages Hreach Hpages)
        as (w'' & new & Hrun' & Hmem & Hchat & _).
      rewrite Hrun in Hrun'. injection Hrun' as <-.
      destruct (digestsOfRun env settings w pages) as [|d ds] eqn:Hd;
        [congruence|].
      split; [congruence|]. split.
      * eexists. exact Hchat.
      * rewrite Hchat, !length_app. simpl. fold preamble present. lia.
    + rewrite (interceptor_out_of_fuel env settings fuel w Hreach Hpages)
        in Hrun. discriminate.
  - destruct (interceptor_early_return env settings fuel w Hreach)
      as (w'' & new & Hrun' & (Hc & _) & _).
    rewrite Hrun in Hrun'. injection Hrun' as <-. contradiction.
Qed.

(** C6.  A run in which the call of every page fails or answers blank
    (the page size being positive): the run returns, the chat is what it
    was, and the collected digest list, which the summarization stage stores
    as the snapshot, is empty. *)
Theorem unproductive_run_untouched (w : World) :
  0 < pageSize settings ->
  (forall k page,
     nth_error (pagesOfRun settings (chat w)) k = Some page ->
     unproductive_call env settings
       (presentSituationTextOf (presentOf settings (chat w)))
       (net_calls w + k) page) ->
  exists w',
    (forall fuel, enoughFuel settings (chat w) fuel ->
                  dynamicMemoryInterceptor fuel env settings w = Some w')
    /\ chat w' = chat w
    /\ (reaches_summarization settings (chat w) = true ->
        runDigests env settings w = [] /\ dynamicMemory w' = []).
Proof.
  intros Hsize Hall. unfold pagesOfRun in Hall.
  destruct (reaches_summarization settings (chat w)) eqn:Hreach.
  - pose proof (unproductive_summaries env settings _ _ (net_calls w) Hall)
      as Hnone.
    fold (digestsOfRun env settings w (pagesOfHistory settings (chat w)))
      in Hnone.
    fold (runDigests env settings w) in Hnone.
    destruct (interceptor_summarizes_total env settings w Hreach Hsize)
      as (w' & new & Hrun & Hmem & Hchat & _).
    rewrite Hnone in Hmem, Hchat.
    exists w'. repeat split; auto.
  - destruct (interceptor_early_return env settings 0 w Hreach)
      as (w' & new & Hrun & (Hc & _) & _).
    exists w'. split; [|split; [exact Hc | discriminate]].
    intros fuel _. apply (interceptor_more_fuel _ _ _ _ _ _ Hrun). lia.
Qed.

End InterceptorClaims.

(* ================================================================== *)
(** ** The preamble, and a last message over the limit *)

Section LastMessage.

Variable env : Env.
Variable settings : Settings.

Lemma not_start_preamble (m : Message) :
  starts_chat m = false -> preamble_message m.
Proof.
  unfold starts_chat, preamble_message. intros H.
  apply orb_false_iff in H as [Hu H]. split; [exact Hu|].
  apply andb_false_iff in H as [H|H]; apply negb_false_iff in H.
  - now left.
  - right. now apply eqb_eq.
Qed.

(** When the first loop leaves with an index, the chat is a run of
    preamble messages followed by a message that opens the conversation,
    and the index is the length of that run. *)
Lemma scan_start_found (msgs : list Message) :
  forall i k,
    msgs <> [] -> scan_start msgs i = Some k ->
    exists pre m rest,
      msgs = pre ++ m :: rest
      /\ k = (i + List.length pre)%nat
      /\ Forall preamble_message pre
      /\ starts_chat m = true.
Proof.
  induction msgs as [|m msgs IH]; intros i k Hne Hscan; [congruence|].
  simpl in Hscan. destruct (starts_chat m) eqn:Hm.
  - injection Hscan as <-. exists [], m, msgs.
    repeat split; auto; simpl; lia.
  - destruct msgs as [|m' msgs']; [discriminate|].
    destruct (IH (S i) k) as (pre & m0 & rest & Hcut & Hk & Hpre & Hm0);
      [congruence | exact Hscan |].
    exists (m :: pre), m0, rest. split; [|split; [|split]].
    + simpl. now rewrite Hcut.
    + simpl. lia.
    + constructor; [now apply not_start_preamble | exact Hpre].
    + exact Hm0.
Qed.

(** In a run that reaches the summarization stage the preamble is the
    longest leading run of preamble messages: the workable chat starts
    with a message that is not one. *)
Lemma reaches_windows (msgs : list Message) :
  reaches_summarization settings msgs = true ->
  Forall preamble_message (initialSystemMessages msgs)
  /\ exists m rest, workableChat msgs = m :: rest /\ starts_chat m = true.
Proof.
  unfold reaches_summarization, initialSystemMessages, workableChat,
    chatStartIndex.
  intros H. apply andb_true_iff in H as [H _].
  apply andb_true_iff in H as [H Hscan].
  apply andb_true_iff in H as [_ Hlen]. apply Nat.leb_le in Hlen.
  destruct (scan_start msgs 0) as [k|] eqn:E; [|discriminate].
  destruct (scan_start_found msgs 0 k) as (pre & m & rest & -> & -> & Hpre & Hm);
    [destruct msgs; simpl in *; [lia | congruence] | exact E |].
  simpl. rewrite firstn_app, Nat.sub_diag, firstn_all, firstn_O, app_nil_r.
  rewrite skipn_app, Nat.sub_diag, skipn_all, skipn_O. simpl.
  split; [exact Hpre | eauto].
Qed.

(** A too long last message stops the backward scan at once. *)
Lemma last_over_limit_windows (limit : Z) (front : list Message)
    (last : Message) :
  len (messageText last) > limit ->
  presentChat limit (front ++ [last]) = []
  /\ historyToSummarize limit (front ++ [last]) = front ++ [last].
Proof.
  intros Hover. unfold presentChat, historyToSummarize, splitIndexOf.
  rewrite rev_app_distr. simpl.
  destruct (Z.gtb_spec (len (messageText last)) limit) as [_|Hfits]; [|lia].
  split; [apply skipn_all | apply firstn_all].
Qed.

(** C1, as the code has it.  When the rendered form of the most recent
    workable message alone exceeds [presentSituationSize], the present
    window is empty and the history is the whole workable chat; a run that
    reaches the summarization stage (with a positive page size) then
    summarises that history, leaves the chat alone when no digest is
    collected, and otherwise replaces it by the preamble followed by the
    summary message. *)
Theorem last_message_over_limit (msgs front : list Message) (last : Message) :
  workableChat msgs = front ++ [last] ->
  len (messageText last) > presentSituationSize settings ->
  presentOf settings msgs = []
  /\ historyOf settings msgs = workableChat msgs
  /\ forall w,
       chat w = msgs ->
       reaches_summarization settings msgs = true ->
       0 < pageSize settings ->
       exists w',
         (forall fuel, enoughFuel settings (chat w) fuel ->
                       dynamicMemoryInterceptor fuel env settings w = Some w')
         /\ dynamicMemory w' = runDigests env settings w
         /\ (runDigests env settings w = [] -> chat w' = chat w)
         /\ (runDigests env settings w <> [] ->
             chat w' = initialSystemMessages msgs
                       ++ [memoryMessage env (runDigests env settings w)]
             /\ chat w' <> chat w).
Proof.
  intros Hwork Hover.
  destruct (last_over_limit_windows (presentSituationSize settings) front last
              Hover) as [Hpresent Hhistory].
  unfold presentOf, historyOf. rewrite Hwork.
  split; [exact Hpresent|]. split; [exact Hhistory|].
  intros w <- Hreach Hsize.
  destruct (interceptor_summarizes_total env settings w Hreach Hsize)
    as (w' & new & Hrun & Hmem & Hchat & _).
  exists w'. split; [exact Hrun|]. split; [exact Hmem|].
  unfold presentOf in Hchat. rewrite Hwork, Hpresent in Hchat.
  destruct (runDigests env settings w) as [|d ds] eqn:Hd.
  - split; [intros _; exact Hchat | congruence].
  - split; [congruence|]. intros _. split; [exact Hchat|].
    destruct (reaches_windows (chat w) Hreach) as (_ & m & rest & Hm & Hstart).
    rewrite Hchat. rewrite (chat_windows settings (chat w)) at 2.
    intros Heq. apply app_inv_head in Heq.
    unfold historyOf, presentOf in Heq.
    rewrite <- windows_partition in Heq. fold (workableChat (chat w)) in Heq.
    rewrite Hm in Heq. injection Heq as Hsame _.
    rewrite <- Hsame in Hstart. discriminate.
Qed.

End LastMessage.

(* ================================================================== *)
(** ** The properties at concrete inputs *)

Section Worked.

Import Examples.

(** The worked example of the specification: with a large limit the
    whole conversation is the present window and the run does nothing but
    write two lines to the console. *)
Example chat4_large_limit :
  initialSystemMessages chat4 = [rules]
  /\ presentOf defaultSettings chat4 = [hi; hello; go_on]
  /\ historyOf defaultSettings chat4 = []
  /\ dynamicMemoryInterceptor 0 offline defaultSettings (world_of chat4)
     = Some {| chat := chat4; dynamicMemory := [lit "stale"];
               events := [ConsoleLog Msg.triggered; ConsoleLog Msg.no_history] |}.
Proof. repeat split. Qed.

(** With room for one message only, the two older turns are history. *)
Example chat4_narrow_limit :
  historyOf narrow chat4 = [hi; hello]
  /\ presentOf narrow chat4 = [go_on]
  /\ paginate 100 (historyOf narrow chat4) (pageSize narrow)
     = Some history_pages.
Proof. repeat split. Qed.

(** 5000 characters in pages of 2000: three pages, the last one short. *)
Example long_history_pages :
  renderedSize long_history = 5000
  /\ option_map (map len) (paginate 10 long_history 2000)
     = Some [2000; 2000; 1000].
Proof. split; vm_compute; reflexivity. Qed.

(** A page size of zero keeps [paginate] in its loop. *)
Example zero_page_size_diverges (fuel : nat) :
  paginate fuel chat4 0 = None.
Proof. apply paginate_diverges; [discriminate | lia]. Qed.

(** Without a credential: two reports, no request. *)
Example summarizePage_without_key :
  summarizePage tea (lit "page") (lit "now") defaultSettings (world_of chat4)
  = (None,
     {| chat := chat4; dynamicMemory := [lit "stale"];
        events := [ToastError Msg.no_key_toast;
                   ConsoleError Msg.no_key_log []] |}).
Proof. reflexivity. Qed.

(** A refused request: the status is reported, the body is logged. *)
Example summarizePage_refused :
  summarizePage refusing (lit "page") (lit "now") narrow (world_of chat4)
  = (None,
     {| chat := chat4; dynamicMemory := [lit "stale"];
        events :=
          [Fetch (pageRequest narrow (lit "page") (lit "now"));
           ToastError (lit "Dynamic Memory: API request failed with status 401. See console for details.");
           ConsoleError (lit "Dynamic Memory: API request failed with status 401") [];
           ConsoleError Msg.status_details [ArgStr (lit "denied")]] |}).
Proof. vm_compute. reflexivity. Qed.

(** A successful exchange returns the trimmed content. *)
Example summarizePage_trims :
  fst (summarizePage tea (lit "page") (lit "now") narrow (world_of chat4))
  = Some (lit "likes tea").
Proof. vm_compute. reflexivity. Qed.

(** C1 as stated fails: the last message of [chat4] is over the limit of
    [tight], yet the history is not empty (it is the three turns) and the
    run against [tea] replaces the chat. *)
Lemma last_message_over_limit_counterexample :
  workableChat chat4 = [hi; hello] ++ [go_on]
  /\ len (messageText go_on) > presentSituationSize tight
  /\ historyOf tight chat4 = [hi; hello; go_on]
  /\ historyOf tight chat4 <> []
  /\ exists w',
       dynamicMemoryInterceptor 100 tea tight (world_of chat4) = Some w'
       /\ chat w' = [rules; memoryMessage tea [lit "likes tea"]]
       /\ chat w' <> chat (world_of chat4).
Proof.
  split; [reflexivity|]. split; [reflexivity|]. split; [reflexivity|].
  split; [discriminate|].
  eexists. split; [vm_compute; reflexivity|].
  split; [reflexivity | discriminate].
Qed.

Lemma last_message_over_limit_witness :
  presentOf tight chat4 = []
  /\ historyOf tight chat4 = workableChat chat4
  /\ forall w,
       chat w = chat4 ->
       reaches_summarization tight chat4 = true ->
       0 < pageSize tight ->
       exists w',
         (forall fuel, enoughFuel tight (chat w) fuel ->
                       dynamicMemoryInterceptor fuel tea tight w = Some w')
         /\ dynamicMemory w' = runDigests tea tight w
         /\ (runDigests tea tight w = [] -> chat w' = chat w)
         /\ (runDigests tea tight w <> [] ->
             chat w' = initialSystemMessages chat4
                       ++ [memoryMessage tea (runDigests tea tight w)]
             /\ chat w' <> chat w).
Proof.
  apply (last_message_over_limit tea tight chat4 [hi; hello] go_on);
    reflexivity.
Defined.

Lemma present_window_maximal_witness :
  (renderedSize [go_on] = 12 /\ renderedSize [hello; go_on] = 23)
  /\ [hi; hello; go_on] = [hi; hello] ++ [go_on]
  /\ ([go_on] <> [] -> renderedSize [go_on] <= 20)
  /\ (0 <= 20 -> renderedSize [go_on] <= 20)
  /\ (forall before m, [hi; hello] = before ++ [m] ->
        renderedSize (m :: [go_on]) > 20)
  /\ (forall k : nat,
        (1 <= k <= 3)%nat ->
        (renderedSize (skipn (3 - k) [hi; hello; go_on]) <= 20
         <-> (k <= 1)%nat)).
Proof.
  split; [split; reflexivity|].
  exact (present_window_maximal 20 [hi; hello; go_on]).
Defined.

Lemma paginate_total_bounded_exact_witness :
  0 < 10
  /\ exists pages,
       pages = [ lit "System: ru";
                 lit "les" ++ LF ++ lit "User: ";
                 lit "hi" ++ LF ++ lit "Bot: he";
                 lit "llo" ++ LF ++ lit "User: ";
                 lit "go on" ++ LF ]
       /\ (forall fuel, (List.length (rendered chat4) < fuel)%nat ->
                        paginate fuel chat4 10 = Some pages)
       /\ Forall (fun p => len p <= 10) pages
       /\ concat pages
          = lit "System: rules" ++ LF ++ lit "User: hi" ++ LF
            ++ lit "Bot: hello" ++ LF ++ lit "User: go on" ++ LF
       /\ (rendered chat4 = [] -> pages = []).
Proof.
  split; [lia|].
  destruct (paginate_total_bounded_exact chat4 10)
    as (pages & Hrun & Hall & Hcat & Hnil); [lia|].
  exists pages.
  assert (pages = [ lit "System: ru";
                    lit "les" ++ LF ++ lit "User: ";
                    lit "hi" ++ LF ++ lit "Bot: he";
                    lit "llo" ++ LF ++ lit "User: ";
                    lit "go on" ++ LF ]) as Hpages.
  { specialize (Hrun 47%nat). vm_compute in Hrun.
    specialize (Hrun (le_n 47)). injection Hrun as <-. reflexivity. }
  split; [exact Hpages|]. split; [exact Hrun|]. split; [exact Hall|].
  split; [exact Hcat | exact Hnil].
Defined.

Lemma mutation_keeps_windows_witness :
  chat (world_of chat4)
  = initialSystemMessages chat4 ++ historyOf narrow chat4 ++ presentOf narrow chat4
  /\ dynamicMemory after_tea <> []
  /\ (exists summary,
        chat after_tea
        = initialSystemMessages chat4 ++ [summary] ++ presentOf narrow chat4)
  /\ List.length (chat after_tea)
     = (List.length (initialSystemMessages chat4) + 1
        + List.length (presentOf narrow chat4))%nat.
Proof.
  apply (mutation_keeps_windows tea narrow 100 (world_of chat4) after_tea);
    [vm_compute; reflexivity | vm_compute; discriminate].
Defined.


Lemma unproductive_run_untouched_witness :
  exists w',
    (forall fuel, enoughFuel narrow chat4 fuel ->
       dynamicMemoryInterceptor fuel offline narrow (world_of chat4) = Some w')
    /\ chat w' = chat4
    /\ (reaches_summarization narrow chat4 = true ->
        runDigests offline narrow (world_of chat4) = []
        /\ dynamicMemory w' = []).
Proof.
  apply (unproductive_run_untouched offline narrow (world_of chat4));
    [reflexivity | intros k page _; right; simpl; exact I].
Defined.

Lemma all_preamble_untouched_witness :
  exists w',
    dynamicMemoryInterceptor 100 tea narrow (world_of system3) = Some w'
    /\ chat w' = system3
    /\ dynamicMemory w' = [lit "stale"]
    /\ filter is_fetch (events w') = [].
Proof.
  apply (all_preamble_untouched tea narrow 100 (world_of system3)).
  simpl.
  repeat (constructor;
          [split; [reflexivity | first [left; reflexivity | right; reflexivity]]|]).
  constructor.
Defined.

Lemma snapshot_overwritten_witness :
  dynamicMemory (world_of chat4) = [lit "stale"]
  /\ page_summaries tea narrow
       (presentSituationTextOf (presentOf narrow chat4))
       (pagesOfHistory narrow chat4)
       (emit (ConsoleLog Msg.triggered) (world_of chat4))
     = [Some (lit "likes tea"); Some []]
  /\ (exists w',
        (forall fuel, enoughFuel narrow chat4 fuel ->
           dynamicMemoryInterceptor fuel tea narrow (world_of chat4) = Some w')
        /\ dynamicMemory w' = [lit "likes tea"]
        /\ dynamicMemory w' = runDigests tea narrow (world_of chat4))
  /\ (exists w',
        (forall fuel, enoughFuel narrow chat4 fuel ->
           dynamicMemoryInterceptor fuel offline narrow (world_of chat4)
           = Some w')
        /\ dynamicMemory w' = []
        /\ dynamicMemory w' = runDigests offline narrow (world_of chat4)).
Proof.
  split; [reflexivity|]. split; [reflexivity|]. split.
  - apply (snapshot_overwritten tea narrow (world_of chat4)); reflexivity.
  - apply (snapshot_overwritten offline narrow (world_of chat4)); reflexivity.
Defined.

Lemma short_chat_untouched_witness :
  enabled tight = true
  /\ historyOf tight chat2 <> []
  /\ (List.length chat2 < 3)%nat
  /\ dynamicMemoryInterceptor 100 tea tight (world_of chat2)
     = Some (world_of chat2).
Proof.
  split; [reflexivity|]. split; [discriminate|]. split; [simpl; lia|].
  apply (short_chat_untouched tea tight 100 (world_of chat2)). simpl. lia.
Defined.

End Worked.

(* ================================================================== *)
(** ** paginate: the layout of the pages *)

Section PageLayout.

(** With a positive page size, the loop started at [startIndex] cuts what
    is left of the text into consecutive stretches of [size] characters. *)
Lemma paginate_loop_layout (fuel : nat) :
  forall (fullText : jsstring) (size startIndex : Z) (pages : list jsstring),
    0 < size -> 0 <= startIndex ->
    Z.max 0 (len fullText - startIndex) < Z.of_nat fuel ->
    exists cut,
      paginate_loop fuel fullText size startIndex pages = Some (pages ++ cut)
      /\ Z.of_nat (List.length cut)
         = (Z.max 0 (len fullText - startIndex) + size - 1) / size
      /\ forall k, (k < List.length cut)%nat ->
           nth_error cut k
           = Some (firstn (Z.to_nat size)
                     (skipn (Z.to_nat startIndex + k * Z.to_nat size) fullText)).
Proof.
  induction fuel as [|fuel IH]; intros fullText size startIndex pages Hp Hs Hf.
  - exfalso. simpl in Hf. lia.
  - simpl. destruct (Z.ltb_spec startIndex (len fullText)) as [Hlt|Hge].
    + destruct (IH fullText size (startIndex + size)
                  (pages ++ [substring fullText startIndex (startIndex + size)]))
        as (cut & Hrun & Hcount & Hnth); try lia.
      exists (substring fullText startIndex (startIndex + size) :: cut).
      split; [|split].
      * rewrite Hrun, <- app_assoc. reflexivity.
      * simpl List.length. rewrite Nat2Z.inj_succ, Hcount.
        replace (Z.max 0 (len fullText - startIndex) + size - 1)
          with ((len fullText - startIndex - 1) + 1 * size) by lia.
        rewrite Z.div_add by lia.
        destruct (Z.le_gt_cases size (len fullText - startIndex)) as [Hfull|Hpart].
        -- replace (Z.max 0 (len fullText - (startIndex + size)) + size - 1)
             with (len fullText - startIndex - 1) by lia.
           lia.
        -- replace (Z.max 0 (len fullText - (startIndex + size)) + size - 1)
             with (size - 1) by lia.
           rewrite !Z.div_small by lia. lia.
      * intros [|k] Hk.
        -- simpl. rewrite substring_page by lia. now rewrite Nat.add_0_r.
        -- simpl. rewrite Hnth by (simpl in Hk; lia). do 3 f_equal. lia.
    + exists []. split; [now rewrite app_nil_r|]. split.
      * simpl. replace (Z.max 0 (len fullText - startIndex)) with 0 by lia.
        symmetry. apply Z.div_small. lia.
      * intros k Hk. simpl in Hk. lia.
Qed.

(** X1.  With a positive page size the pages are the consecutive stretches
    of [pageSize] characters of the rendered blob: there are
    [ceil (length / pageSize)] of them, the [k]-th one starts at character
    [k * pageSize], none is empty, and every page but the last has exactly
    [pageSize] characters. *)
Theorem paginate_page_layout (msgs : list Message) (size : Z) :
  0 < size ->
  exists pages,
    (forall fuel, (List.length (rendered msgs) < fuel)%nat ->
                  paginate fuel msgs size = Some pages)
    /\ List.length pages = pageCount size (rendered msgs)
    /\ forall k page,
         nth_error pages k = Some page ->
         page = pageAt size (rendered msgs) k
         /\ page <> []
         /\ ((S k < List.length pages)%nat -> len page = size).
Proof.
  intros Hp. unfold paginate, pageCount. rewrite fullTextOf_rendered. simpl.
  destruct (Z.eqb_spec (len (rendered msgs)) 0) as [Hz|Hnz].
  - exists []. split; [reflexivity|]. split.
    + rewrite Hz. simpl. rewrite Z.div_small by lia. reflexivity.
    + intros [|k] page H; discriminate.
  - destruct (paginate_loop_layout (S (List.length (rendered msgs)))
                (rendered msgs) size 0 [] Hp (Z.le_refl 0))
      as (cut & Hrun & Hcount & Hnth); [unfold len; lia|].
    pose proof (len_nonneg (rendered msgs)) as Hlen.
    replace (Z.max 0 (len (rendered msgs) - 0)) with (len (rendered msgs))
      in Hcount by lia.
    exists cut. split; [|split].
    + intros fuel Hfuel. eapply paginate_loop_more_fuel; [exact Hrun | lia].
    + rewrite <- Hcount. now rewrite Nat2Z.id.
    + intros k page Hpage.
      assert (k < List.length cut)%nat as Hk
        by (apply nth_error_Some; congruence).
      rewrite (Hnth k Hk) in Hpage. injection Hpage as <-. simpl.
      pose proof (Z.mul_div_le (len (rendered msgs) + size - 1) size Hp) as Hfloor.
      rewrite <- Hcount in Hfloor.
      assert (Z.of_nat (k * Z.to_nat size) = Z.of_nat k * size) as Hoff
        by (rewrite Nat2Z.inj_mul, Z2Nat.id; lia).
      assert (Z.of_nat k * size + size <= len (rendered msgs) + size - 1) as Hin
        by nia.
      split; [reflexivity|]. unfold len in *. split.
      * intros Hnil. apply (f_equal (@List.length _)) in Hnil.
        rewrite length_firstn, length_skipn in Hnil. simpl in Hnil. lia.
      * intros Hnext. rewrite length_firstn, length_skipn.
        assert (Z.of_nat k * size + size + size
                <= Z.of_nat (List.length (rendered msgs)) + size - 1) by nia.
        lia.
Qed.

End PageLayout.

(* ================================================================== *)
(** ** When paginate and the entry point return *)

Section Returning.

Variable env : Env.
Variable settings : Settings.

(** X2.  On a non-empty message list and with an integer page size of
    zero or less, [paginate] never returns: its loop is entered, since the
    rendered blob is not empty, and [startIndex] never reaches the end of
    the blob. *)
Theorem paginate_hangs (msgs : list Message) (size : Z) :
  msgs <> [] -> size <= 0 ->
  0 < len (rendered msgs)
  /\ forall fuel, paginate fuel msgs size = None.
Proof.
  intros Hne Hsize.
  pose proof (renderedSize_positive msgs Hne) as Hpos.
  unfold renderedSize in Hpos. split; [exact Hpos|].
  intros fuel. unfold paginate. rewrite fullTextOf_rendered. cbn [app].
  destruct (Z.eqb_spec (len (rendered msgs)) 0); [lia|].
  apply paginate_loop_forever; lia.
Qed.

(** X3.  A run that reaches the summarization stage under an integer page
    size of zero or less never returns: it stays in [paginate], before any
    request is sent and before the snapshot or the chat is written. *)
Theorem interceptor_hangs (w : World) :
  reaches_summarization settings (chat w) = true ->
  pageSize settings <= 0 ->
  forall fuel, dynamicMemoryInterceptor fuel env settings w = None.
Proof.
  intros Hreach Hsize fuel.
  apply interceptor_out_of_fuel; [exact Hreach|].
  apply paginate_diverges; [|exact Hsize].
  unfold reaches_summarization in Hreach.
  apply andb_true_iff in Hreach as [_ Hhist].
  apply negb_true_iff in Hhist. unfold historyOf.
  intros Hnil. rewrite Hnil in Hhist. discriminate.
Qed.

(** On integers the loop over numbers is the loop over [Z]. *)
Lemma paginate_loop_number_int (fuel : nat) :
  forall fullText size startIndex pages,
    paginate_loop_number fuel fullText (Int size) (Int startIndex) pages
    = paginate_loop fuel fullText size startIndex pages.
Proof.
  induction fuel as [|fuel IH]; intros fullText size startIndex pages;
    [reflexivity|].
  simpl. destruct (startIndex <? len fullText); [apply IH | reflexivity].
Qed.

(** X20.  Over the numbers the settings form can store, [paginate] with an
    integer page size is the [paginate] of this development; with [NaN] it
    returns after one turn of its loop: the single empty page on a non-empty
    message list, no page on an empty one. *)
Theorem paginate_number_cases (fuel : nat) (msgs : list Message) :
  (forall size, paginate_number fuel msgs (Int size) = paginate fuel msgs size)
  /\ (msgs = [] -> paginate_number fuel msgs NaN = Some [])
  /\ (msgs <> [] -> (2 <= fuel)%nat ->
      paginate_number fuel msgs NaN = Some [[]]).
Proof.
  unfold paginate_number, paginate. split; [|split].
  - intros size. destruct (len (fullTextOf msgs []) =? 0); [reflexivity|].
    apply paginate_loop_number_int.
  - intros ->. reflexivity.
  - intros Hne Hfuel. rewrite fullTextOf_rendered. cbn [app].
    pose proof (renderedSize_positive msgs Hne) as Hpos.
    unfold renderedSize in Hpos.
    destruct (Z.eqb_spec (len (rendered msgs)) 0); [lia|].
    destruct fuel as [|[|fuel]]; [lia | lia |].
    simpl. destruct (Z.ltb_spec 0 (len (rendered msgs))); [|lia].
    unfold substring, clamp. simpl.
    replace (Z.max 0 (Z.min 0 (len (rendered msgs)))) with 0 by lia.
    reflexivity.
Qed.

End Returning.

(* ================================================================== *)
(** ** More on the two scans of the window splitter *)

Section Scans.

(** A trailing run of [k >= 1] messages fits under the limit exactly when
    it lies within the present window. *)
Lemma trailing_run_fits (limit : Z) (workable : list Message) (k : nat) :
  (1 <= k <= List.length workable)%nat ->
  (renderedSize (skipn (List.length workable - k) workable) <= limit
   <-> (k <= List.length (presentChat limit workable))%nat).
Proof.
  destruct (windows_cut limit workable) as [Hin Hout].
  pose proof (longest_trailing_run limit _ _ Hin Hout k) as Hmax.
  now rewrite <- windows_partition in Hmax.
Qed.

(** X4.  The history is empty exactly when the workable chat is empty or
    fits under the limit as a whole, and then the present window is the
    whole workable chat. *)
Theorem history_empty_iff_fits (limit : Z) (workable : list Message) :
  (historyToSummarize limit workable = []
   <-> (workable = [] \/ renderedSize workable <= limit))
  /\ (historyToSummarize limit workable = [] ->
      presentChat limit workable = workable).
Proof.
  pose proof (windows_partition limit workable) as Hcut.
  destruct (windows_cut limit workable) as [Hin Hout].
  split; [split|].
  - intros Hnil. rewrite Hnil in Hcut. simpl in Hcut.
    destruct workable as [|m rest]; [now left|]. right.
    rewrite Hcut at 1. apply Hin. rewrite <- Hcut. discriminate.
  - intros [->|Hfits]; [reflexivity|].
    destruct (historyToSummarize limit workable) as [|h history] eqn:Hh;
      [reflexivity|].
    destruct (exists_last (l := h :: history)) as (before & m & Hlast);
      [discriminate|].
    specialize (Hout before m Hlast).
    rewrite Hcut, Hlast, !renderedSize_app, renderedSize_cons in Hfits.
    change (renderedSize []) with 0 in Hfits.
    pose proof (renderedSize_nonneg before). lia.
  - intros Hnil. rewrite Hnil in Hcut. simpl in Hcut. now symmetry.
Qed.

(** X5.  A larger limit never shortens the present window. *)
Theorem present_window_monotone (limit limit' : Z) (workable : list Message) :
  limit <= limit' ->
  (List.length (presentChat limit workable)
   <= List.length (presentChat limit' workable))%nat.
Proof.
  intros Hle.
  set (k := List.length (presentChat limit workable)).
  destruct (Nat.eq_dec k 0) as [->|Hk]; [lia|].
  assert (k <= List.length workable)%nat as Hbound.
  { unfold k. rewrite (windows_partition limit workable) at 2.
    rewrite length_app. lia. }
  apply (trailing_run_fits limit' workable k); [lia|].
  assert (renderedSize (skipn (List.length workable - k) workable) <= limit)
    by (apply (trailing_run_fits limit workable k); [lia | unfold k; lia]).
  lia.
Qed.

(** A first loop that takes its [return] has seen preamble messages only. *)
Lemma scan_start_none (msgs : list Message) :
  forall i, scan_start msgs i = None -> Forall preamble_message msgs.
Proof.
  induction msgs as [|m msgs IH]; intros i Hscan; [discriminate|].
  simpl in Hscan. destruct (starts_chat m) eqn:Hm; [discriminate|].
  constructor; [now apply not_start_preamble|].
  destruct msgs as [|m' msgs']; [constructor | eapply IH; exact Hscan].
Qed.

(** X6.  On a non-empty chat the first loop either takes its [return],
    exactly when every message is a preamble message, or it stops at the
    first message that is not one: the preamble is the longest leading run
    of preamble messages and the workable chat starts with that message. *)
Theorem preamble_scan_cases (msgs : list Message) :
  msgs <> [] ->
  (scan_start msgs 0 = None <-> Forall preamble_message msgs)
  /\ forall k,
       scan_start msgs 0 = Some k ->
       exists m rest,
         msgs = initialSystemMessages msgs ++ m :: rest
         /\ k = List.length (initialSystemMessages msgs)
         /\ Forall preamble_message (initialSystemMessages msgs)
         /\ ~ preamble_message m
         /\ workableChat msgs = m :: rest.
Proof.
  intros Hne. split.
  - split; [apply scan_start_none|].
    intros Hall. now apply scan_start_all_preamble.
  - intros k Hscan.
    destruct (scan_start_found msgs 0 k Hne Hscan)
      as (pre & m & rest & Hcut & Hk & Hpre & Hm).
    simpl in Hk. subst k.
    unfold initialSystemMessages, workableChat, chatStartIndex.
    rewrite Hscan, Hcut.
    rewrite firstn_app, Nat.sub_diag, firstn_all, firstn_O, app_nil_r.
    rewrite skipn_app, Nat.sub_diag, skipn_all, skipn_O. simpl.
    exists m, rest. repeat split; auto.
    intros Hpm. rewrite (preamble_not_start m Hpm) in Hm. discriminate.
Qed.

End Scans.

(* ================================================================== *)
(** ** The trace of a run *)

Section Trace.

Variable env : Env.
Variable settings : Settings.

(** A run that reaches the summarization stage, once [paginate] has
    returned: the loop, then the store of the snapshot, then the rebuild. *)
Lemma interceptor_unfold (fuel : nat) (w : World) (pages : list jsstring) :
  reaches_summarization settings (chat w) = true ->
  paginate fuel (historyOf settings (chat w)) (pageSize settings) = Some pages ->
  dynamicMemoryInterceptor fuel env settings w
  = Some
      (let loop :=
         summarize_loop env settings
           (presentSituationTextOf (presentOf settings (chat w))) pages []
           (emit (ConsoleLog Msg.triggered) w) in
       match fst loop with
       | [] => set_dynamicMemory [] (snd loop)
       | _ :: _ =>
           emit (ConsoleLog Msg.reconstructed)
             (set_chat
                (initialSystemMessages (chat w)
                 ++ [memoryMessage env (fst loop)]
                 ++ presentOf settings (chat w))
                (set_dynamicMemory (fst loop) (snd loop)))
       end).
Proof.
  unfold reaches_summarization, dynamicMemoryInterceptor, historyOf, presentOf,
    initialSystemMessages, workableChat, chatStartIndex.
  intros Hreach Hpages.
  apply andb_true_iff in Hreach as [Hreach Hhist].
  apply andb_true_iff in Hreach as [Hreach Hscan].
  apply andb_true_iff in Hreach as [Hen Hlen].
  rewrite Hen. cbn [negb orb].
  apply Nat.leb_le in Hlen.
  destruct (Z.ltb_spec (Z.of_nat (List.length (chat w))) 3) as [Hshort|_];
    [lia|].
  change (chat (emit (ConsoleLog Msg.triggered) w)) with (chat w).
  destruct (scan_start (chat w) 0) as [i|]; [|discriminate].
  apply negb_true_iff in Hhist. rewrite Hhist, Hpages.
  destruct (summarize_loop _ _ _ pages [] _) as [[|d ds] w2]; reflexivity.
Qed.


(** Without a credential the loop collects nothing and reports twice per
    page. *)
Lemma summarize_loop_no_key (presentSituationText : jsstring)
    (pages : list jsstring) :
  apiKey settings = [] ->
  forall (acc : list jsstring) (w : World),
    summarize_loop env settings presentSituationText pages acc w
    = (acc,
       {| chat := chat w; dynamicMemory := dynamicMemory w;
          events :=
            events w
            ++ flat_map (fun _ => [ToastError Msg.no_key_toast;
                                   ConsoleError Msg.no_key_log []]) pages |}).
Proof.
  intros Hkey.
  induction pages as [|page pages IH]; intros acc w; simpl.
  - rewrite app_nil_r. now destruct w.
  - unfold summarizePage. rewrite Hkey. rewrite IH. simpl.
    now rewrite <- !app_assoc.
Qed.

(** An enabled run on three messages or more starts by writing to the
    console. *)
Lemma interceptor_logs_first (fuel : nat) (w w' : World) :
  enabled settings = true -> (3 <= List.length (chat w))%nat ->
  dynamicMemoryInterceptor fuel env settings w = Some w' ->
  exists rest, events w' = events w ++ ConsoleLog Msg.triggered :: rest.
Proof.
  intros Hen Hlen Hrun.
  destruct (reaches_summarization settings (chat w)) eqn:Hreach.
  - destruct (paginate fuel (historyOf settings (chat w)) (pageSize settings))
      as [pages|] eqn:Hpages.
    + rewrite (interceptor_unfold fuel w pages Hreach Hpages) in Hrun.
      injection Hrun as <-.
      destruct (summarize_loop_appends env settings
                  (presentSituationTextOf (presentOf settings (chat w)))
                  pages [] (emit (ConsoleLog Msg.triggered) w))
        as (new & (_ & _ & He) & _).
      cbv zeta.
      destruct (summarize_loop _ _ _ pages [] _) as [[|d ds] w2];
        simpl in *; rewrite He, <- !app_assoc; simpl; eauto.
    + rewrite (interceptor_out_of_fuel env settings fuel w Hreach Hpages)
        in Hrun. discriminate.
  - revert Hrun Hreach.
    unfold dynamicMemoryInterceptor, reaches_summarization, workableChat,
      chatStartIndex.
    rewrite Hen. cbn [negb orb andb].
    destruct (Z.ltb_spec (Z.of_nat (List.length (chat w))) 3) as [Hshort|_];
      [lia|].
    apply Nat.leb_le in Hlen. rewrite Hlen. cbn [andb].
    change (chat (emit (ConsoleLog Msg.triggered) w)) with (chat w).
    destruct (scan_start (chat w) 0) as [i|].
    + cbn [andb]. intros Hrun Hhist. apply negb_false_iff in Hhist.
      rewrite Hhist in Hrun. injection Hrun as <-. simpl.
      rewrite <- app_assoc. simpl. eauto.
    + intros Hrun _. injection Hrun as <-. simpl. eauto.
Qed.

(** X7.  The run leaves the world exactly as it was (chat, snapshot and
    trace) if and only if the extension is disabled or the chat has fewer
    than three messages; every other run that returns has at least written
    to the console. *)
Theorem interceptor_silent_iff (fuel : nat) (w : World) :
  dynamicMemoryInterceptor fuel env settings w = Some w
  <-> (enabled settings = false \/ (List.length (chat w) < 3)%nat).
Proof.
  split.
  - intros Hrun.
    destruct (enabled settings) eqn:Hen; [right | now left].
    destruct (Nat.lt_ge_cases (List.length (chat w)) 3) as [Hlt|Hge];
      [exact Hlt | exfalso].
    destruct (interceptor_logs_first fuel w w Hen Hge Hrun) as (rest & He).
    apply (f_equal (@List.length _)) in He.
    rewrite length_app in He. simpl in He. lia.
  - intros [Hoff|Hshort]; unfold dynamicMemoryInterceptor.
    + now rewrite Hoff.
    + destruct (Z.ltb_spec (Z.of_nat (List.length (chat w))) 3); [|lia].
      now rewrite orb_true_r.
Qed.

(** X8.  A run that stops before the summarization stage (disabled, short
    chat, only preamble messages, or no history) returns for any fuel with
    the chat and the previous snapshot as they were; all it may have done is
    write one or two lines to the console. *)
Theorem early_return_keeps_snapshot (w : World) :
  reaches_summarization settings (chat w) = false ->
  exists w' new,
    (forall fuel, dynamicMemoryInterceptor fuel env settings w = Some w')
    /\ chat w' = chat w
    /\ dynamicMemory w' = dynamicMemory w
    /\ events w' = events w ++ new
    /\ (new = []
        \/ new = [ConsoleLog Msg.triggered]
        \/ new = [ConsoleLog Msg.triggered; ConsoleLog Msg.no_history]).
Proof.
  unfold reaches_summarization, dynamicMemoryInterceptor, workableChat,
    chatStartIndex.
  intros Hreach.
  destruct (enabled settings); cbn [negb orb andb] in *;
    [|exists w, []; repeat split; simpl; auto using app_nil_r].
  destruct (Z.ltb_spec (Z.of_nat (List.length (chat w))) 3) as [Hshort|Hlong].
  { exists w, []. repeat split; simpl; auto using app_nil_r. }
  assert ((3 <=? List.length (chat w))%nat = true) as Hlen
    by (apply Nat.leb_le; lia).
  rewrite Hlen in Hreach. cbn [andb] in Hreach.
  change (chat (emit (ConsoleLog Msg.triggered) w)) with (chat w).
  destruct (scan_start (chat w) 0) as [i|].
  - cbn [andb] in Hreach. apply negb_false_iff in Hreach. rewrite Hreach.
    eexists _, [ConsoleLog Msg.triggered; ConsoleLog Msg.no_history].
    split; [reflexivity|]. simpl. rewrite <- app_assoc. simpl. auto 6.
  - eexists _, [ConsoleLog Msg.triggered].
    split; [reflexivity|]. simpl. auto 6.
Qed.

End Trace.

(* ================================================================== *)
(** ** What a summarising run sends, reports and leaves behind *)

Section RunEffects.

Variable env : Env.
Variable settings : Settings.

(** A summarising run with a positive page size, for every sufficient
    fuel. *)
Lemma interceptor_unfold_total (w : World) :
  reaches_summarization settings (chat w) = true ->
  0 < pageSize settings ->
  forall fuel, enoughFuel settings (chat w) fuel ->
    dynamicMemoryInterceptor fuel env settings w
    = Some
        (let loop :=
           summarize_loop env settings
             (presentSituationTextOf (presentOf settings (chat w)))
             (pagesOfHistory settings (chat w)) []
             (emit (ConsoleLog Msg.triggered) w) in
         match fst loop with
         | [] => set_dynamicMemory [] (snd loop)
         | _ :: _ =>
             emit (ConsoleLog Msg.reconstructed)
               (set_chat
                  (initialSystemMessages (chat w)
                   ++ [memoryMessage env (fst loop)]
                   ++ presentOf settings (chat w))
                  (set_dynamicMemory (fst loop) (snd loop)))
         end).
Proof.
  intros Hreach Hsize fuel Hfuel.
  apply interceptor_unfold; [exact Hreach|].
  now apply paginate_history.
Qed.


(** X10.  Without a credential, a summarising run sends nothing, shows one
    toast and one console error per page of the history, empties the
    snapshot and leaves the chat as it was. *)
Theorem no_credential_run (w : World) :
  reaches_summarization settings (chat w) = true ->
  0 < pageSize settings ->
  apiKey settings = [] ->
  exists w',
    (forall fuel, enoughFuel settings (chat w) fuel ->
                  dynamicMemoryInterceptor fuel env settings w = Some w')
    /\ chat w' = chat w
    /\ dynamicMemory w' = []
    /\ events w'
       = events w
         ++ ConsoleLog Msg.triggered
            :: flat_map (fun _ => [ToastError Msg.no_key_toast;
                                   ConsoleError Msg.no_key_log []])
                 (pagesOfHistory settings (chat w)).
Proof.
  intros Hreach Hsize Hkey.
  pose proof (interceptor_unfold_total w Hreach Hsize) as Hrun.
  rewrite (summarize_loop_no_key env settings _ _ Hkey) in Hrun.
  simpl in Hrun.
  eexists. split; [exact Hrun|]. simpl. repeat split.
  now rewrite <- app_assoc.
Qed.

(** X11.  A run never makes the chat longer: a run that changes it
    replaces the whole history, at least one message, by one message. *)
Theorem chat_never_grows (fuel : nat) (w w' : World) :
  dynamicMemoryInterceptor fuel env settings w = Some w' ->
  (List.length (chat w') <= List.length (chat w))%nat
  /\ (chat w' <> chat w ->
      historyOf settings (chat w) <> []
      /\ (List.length (chat w') + List.length (historyOf settings (chat w))
          = List.length (chat w) + 1)%nat).
Proof.
  intros Hrun.
  destruct (reaches_summarization settings (chat w)) eqn:Hreach.
  - destruct (paginate fuel (historyOf settings (chat w)) (pageSize settings))
      as [pages|] eqn:Hpages.
    + destruct (interceptor_summarizes env settings fuel w pages Hreach Hpages)
        as (w'' & new & Hrun' & _ & Hchat & _).
      rewrite Hrun in Hrun'. injection Hrun' as <-.
      assert (historyOf settings (chat w) <> []) as Hhist.
      { unfold reaches_summarization in Hreach.
        apply andb_true_iff in Hreach as [_ H]. apply negb_true_iff in H.
        unfold historyOf. intros E. rewrite E in H. discriminate. }
      assert (List.length (historyOf settings (chat w)) <> 0)%nat as Hlen
        by (destruct (historyOf settings (chat w)); simpl; congruence).
      pose proof (f_equal (@List.length _) (chat_windows settings (chat w)))
        as Hwin.
      rewrite !length_app in Hwin.
      destruct (digestsOfRun env settings w pages) as [|d ds].
      * rewrite Hchat. split; [lia | congruence].
      * rewrite Hchat, !length_app. simpl. split; [lia|].
        intros _. split; [exact Hhist | lia].
    + rewrite (interceptor_out_of_fuel env settings fuel w Hreach Hpages)
        in Hrun. discriminate.
  - destruct (interceptor_early_return env settings fuel w Hreach)
      as (w'' & new & Hrun' & (Hc & _) & _).
    rewrite Hrun in Hrun'. injection Hrun' as <-.
    rewrite Hc. split; [lia | congruence].
Qed.

(** A leading run of preamble messages of a chat lies within the preamble
    the first loop finds. *)
Lemma preamble_run_within (a : list Message) :
  forall (b pre : list Message) (m : Message) (rest : list Message),
    a ++ b = pre ++ m :: rest ->
    Forall preamble_message a -> starts_chat m = true ->
    exists tail, pre = a ++ tail.
Proof.
  induction a as [|x a IH]; intros b pre m rest Hcut Hall Hm.
  - exists pre. reflexivity.
  - inversion Hall as [|? ? Hx Ha]; subst.
    destruct pre as [|y pre]; simpl in Hcut.
    + injection Hcut as -> _.
      rewrite (preamble_not_start m Hx) in Hm. discriminate.
    + injection Hcut as -> Hcut.
      destruct (IH b pre m rest Hcut Ha Hm) as (tail & ->).
      exists tail. reflexivity.
Qed.

(** X12.  The summary message a run inserts is itself a preamble message:
    in the rebuilt chat the old preamble followed by the summary is a run of
    preamble messages, so a later run on that chat keeps the summary, in
    place, inside its own preamble and never summarises it again. *)
Theorem summary_joins_preamble (fuel : nat) (w w' : World) :
  dynamicMemoryInterceptor fuel env settings w = Some w' ->
  chat w' <> chat w ->
  exists summary,
    chat w' = initialSystemMessages (chat w) ++ [summary]
              ++ presentOf settings (chat w)
    /\ Forall preamble_message (initialSystemMessages (chat w) ++ [summary])
    /\ (scan_start (chat w') 0 <> None ->
        exists tail,
          initialSystemMessages (chat w')
          = initialSystemMessages (chat w) ++ [summary] ++ tail).
Proof.
  intros Hrun Hchanged.
  destruct (reaches_summarization settings (chat w)) eqn:Hreach.
  - destruct (paginate fuel (historyOf settings (chat w)) (pageSize settings))
      as [pages|] eqn:Hpages.
    + destruct (interceptor_summarizes env settings fuel w pages Hreach Hpages)
        as (w'' & new & Hrun' & _ & Hchat & _).
      rewrite Hrun in Hrun'. injection Hrun' as <-.
      destruct (digestsOfRun env settings w pages) as [|d ds] eqn:Hd;
        [congruence|].
      destruct (reaches_windows settings (chat w) Hreach) as [Hpre _].
      exists (memoryMessage env (d :: ds)).
      assert (Forall preamble_message
                (initialSystemMessages (chat w) ++ [memoryMessage env (d :: ds)]))
        as Hall.
      { apply Forall_app. split; [exact Hpre|].
        constructor; [|constructor]. split; [reflexivity | now left]. }
      split; [exact Hchat|]. split; [exact Hall|].
      intros Hscan.
      destruct (scan_start (chat w') 0) as [k|] eqn:Hk; [|congruence].
      destruct (scan_start_found (chat w') 0 k) as (pre & m & rest & Hcut & -> & _ & Hm);
        [rewrite Hchat; now destruct (initialSystemMessages (chat w)) | exact Hk |].
      rewrite Hchat, app_assoc in Hcut.
      destruct (preamble_run_within _ _ _ _ _ Hcut Hall Hm) as (tail & Hpre').
      exists tail.
      unfold initialSystemMessages at 1. unfold chatStartIndex. rewrite Hk.
      simpl. rewrite Hchat, app_assoc, Hcut.
      rewrite firstn_app, Nat.sub_diag, firstn_all, firstn_O, app_nil_r.
      rewrite Hpre', <- app_assoc. reflexivity.
    + rewrite (interceptor_out_of_fuel env settings fuel w Hreach Hpages)
        in Hrun. discriminate.
  - destruct (interceptor_early_return env settings fuel w Hreach)
      as (w'' & new & Hrun' & (Hc & _) & _).
    rewrite Hrun in Hrun'. injection Hrun' as <-. contradiction.
Qed.

End RunEffects.

(* ================================================================== *)
(** ** More on summarizePage *)

Section Digests.

Variable env : Env.
Variable settings : Settings.

(** [trimStart] removes a blank prefix and nothing else. *)
Lemma trimStart_split (s : jsstring) :
  exists ws, s = ws ++ trimStart s /\ blank ws.
Proof.
  induction s as [|c s (ws & Hs & Hws)]; simpl.
  - exists []. split; [reflexivity | constructor].
  - destruct (is_white c) eqn:Hc.
    + exists (c :: ws). split; [simpl; now rewrite <- Hs | now constructor].
    + exists []. split; [reflexivity | constructor].
Qed.

Lemma trimStart_head (s : jsstring) (c : char16) (rest : jsstring) :
  trimStart s = c :: rest -> is_white c = false.
Proof.
  induction s as [|x s IH]; simpl; [discriminate|].
  destruct (is_white x) eqn:Hx; [exact IH|].
  intros H. injection H as <- _. exact Hx.
Qed.

(** What [trim] returns has no white space at either end. *)
Lemma trim_trimmed (s : jsstring) : trimmed (trim s).
Proof.
  unfold trim. split.
  - intros c rest Hhead.
    destruct (trimStart_split (rev (trimStart s))) as (ws & Hrev & _).
    apply (f_equal (@rev _)) in Hrev.
    rewrite rev_involutive, rev_app_distr, Hhead in Hrev. simpl in Hrev.
    exact (trimStart_head s c _ Hrev).
  - intros front c Hlast.
    apply (f_equal (@rev _)) in Hlast.
    rewrite rev_involutive, rev_app_distr in Hlast. simpl in Hlast.
    exact (trimStart_head _ c _ Hlast).
Qed.

(** Only a blank string is trimmed to the empty string. *)
Lemma trim_nil_blank (s : jsstring) : trim s = [] -> blank s.
Proof.
  unfold trim. intros Hnil.
  apply (f_equal (@rev _)) in Hnil. rewrite rev_involutive in Hnil.
  simpl in Hnil.
  destruct (trimStart_split (rev (trimStart s))) as (ws & Hrev & Hws).
  rewrite Hnil, app_nil_r in Hrev.
  destruct (trimStart_split s) as (ws' & Hs & Hws').
  destruct (trimStart s) as [|c u] eqn:Hu.
  - rewrite Hs, app_nil_r. exact Hws'.
  - exfalso. pose proof (trimStart_head s c u Hu) as Hc.
    assert (In c ws) as Hin.
    { rewrite <- Hrev. apply in_rev. rewrite rev_involutive. now left. }
    unfold blank in Hws. rewrite Forall_forall in Hws.
    rewrite (Hws c Hin) in Hc. discriminate.
Qed.

(** A [try] block that returns a string has only sent its request. *)
Lemma summarizePage_try_quiet (prompt : jsstring) (w : World) (s : jsstring) :
  fst (summarizePage_try env settings prompt w) = Normal (Some s) ->
  snd (summarizePage_try env settings prompt w)
  = emit (Fetch (requestOf settings prompt)) w.
Proof.
  unfold summarizePage_try, bind, fetch.
  destruct (remote env (net_calls w) (requestOf settings prompt))
    as [response|error]; simpl; [|discriminate].
  destruct (ok response); simpl.
  - destruct (json response) as [e|data]; simpl; [discriminate|].
    destruct data; simpl; try discriminate.
    destruct (falsy (assoc (lit "choices") props)
              || is_zero (get_length (assoc (lit "choices") props)));
      simpl; [discriminate|].
    destruct (get_first (assoc (lit "choices") props)) as [| | | | | |first];
      simpl; try discriminate.
    destruct (assoc (lit "message") first) as [| | | | | |message];
      simpl; try discriminate.
    destruct (assoc (lit "content") message); simpl; try discriminate.
    reflexivity.
  - destruct (text response) as [e|errorText]; simpl; discriminate.
Qed.

(** X13.  When [summarizePage] returns a string, a credential was set, the
    only effect of the call is its one request (no toast, no console
    error), and the string is the content the endpoint answered with, white
    space removed from both ends. *)
Theorem summarizePage_success_is_quiet (page presentSituation : jsstring)
    (w : World) (s : jsstring) :
  fst (summarizePage env page presentSituation settings w) = Some s ->
  apiKey settings <> []
  /\ snd (summarizePage env page presentSituation settings w)
     = emit (Fetch (pageRequest settings page presentSituation)) w
  /\ trimmed s
  /\ exists content,
       answer (remote env (net_calls w)
                 (pageRequest settings page presentSituation)) = Some content
       /\ s = trim content.
Proof.
  intros Hret.
  destruct (summarizePage_cases env settings page presentSituation w)
    as (new & _ & Hnokey & Hkey & _).
  assert (apiKey settings <> []) as Hset.
  { intros E. destruct (Hnokey E) as [Hnone _]. congruence. }
  destruct (Hkey Hset) as [Hval _]. rewrite Hret in Hval.
  destruct (answer _) as [content|] eqn:Hans; [|discriminate].
  injection Hval as ->.
  split; [exact Hset|]. split; [|split; [apply trim_trimmed | eauto]].
  revert Hret. unfold summarizePage, pageRequest.
  destruct (apiKey settings) as [|c key]; [congruence|].
  pose proof (summarizePage_try_quiet (promptOf page presentSituation) w
                (trim content)) as Hquiet.
  destruct (summarizePage_try env settings (promptOf page presentSituation) w)
    as [[r|error] w1]; simpl in *; [|discriminate].
  intros ->. now apply Hquiet.
Qed.

(** X14.  A page adds a digest to the collected list exactly when its call
    is productive: the list is left as it was if and only if there is no
    credential, or the exchange fails, or the answer is blank. *)
Theorem page_contributes_iff (page presentSituation : jsstring) (w : World)
    (summarizedPages : list jsstring) :
  push_summary summarizedPages
    (fst (summarizePage env page presentSituation settings w))
  = summarizedPages
  <-> unproductive_call env settings presentSituation (net_calls w) page.
Proof.
  destruct (summarizePage_cases env settings page presentSituation w)
    as (new & _ & Hnokey & Hkey & _).
  unfold unproductive_call, fails_or_blank.
  destruct (apiKey settings) as [|c key] eqn:E.
  - destruct (Hnokey eq_refl) as [-> _]. simpl. tauto.
  - destruct Hkey as [-> _]; [congruence|].
    destruct (answer _) as [content|]; simpl.
    + destruct (trim content) as [|d ds] eqn:Ht.
      * split; [intros _; right; now apply trim_nil_blank | reflexivity].
      * split.
        -- intros H. apply (f_equal (@List.length _)) in H.
           rewrite length_app in H. simpl in H. lia.
        -- intros [H|H]; [discriminate|].
           rewrite (trim_blank content H) in Ht. discriminate.
    + split; [intros _; now right | reflexivity].
Qed.

(** Every collected digest is a non-empty trimmed string, and there is at
    most one per page. *)
Lemma digests_clean (presentSituation : jsstring) (pages : list jsstring) :
  forall n : nat,
    Forall (fun d => d <> [] /\ trimmed d)
      (nonEmptyDigests (summariesFrom env settings presentSituation n pages))
    /\ (List.length
          (nonEmptyDigests (summariesFrom env settings presentSituation n pages))
        <= List.length pages)%nat.
Proof.
  induction pages as [|page pages IH]; intros n; simpl.
  - split; [constructor | lia].
  - destruct (IH (S n)) as [Hall Hlen].
    rewrite nonEmptyDigests_cons.
    destruct (summaryAt env settings presentSituation n page) as [[|d ds]|]
      eqn:Hs; simpl; try (split; [exact Hall | lia]).
    split; [|lia]. constructor; [|exact Hall].
    split; [discriminate|].
    unfold summaryAt in Hs. destruct (apiKey settings); [discriminate|].
    destruct (answer _) as [content|]; [|discriminate].
    simpl in Hs. injection Hs as Hs. rewrite <- Hs. apply trim_trimmed.
Qed.

(** X15.  After a summarising run every entry of the snapshot is a
    non-empty string without white space at either end, and the snapshot has
    at most one entry per page of the history. *)
Theorem snapshot_entries_clean (w : World) :
  reaches_summarization settings (chat w) = true ->
  0 < pageSize settings ->
  exists w',
    (forall fuel, enoughFuel settings (chat w) fuel ->
                  dynamicMemoryInterceptor fuel env settings w = Some w')
    /\ Forall (fun d => d <> [] /\ trimmed d) (dynamicMemory w')
    /\ (List.length (dynamicMemory w')
        <= List.length (pagesOfHistory settings (chat w)))%nat.
Proof.
  intros Hreach Hsize.
  destruct (interceptor_summarizes_total env settings w Hreach Hsize)
    as (w' & new & Hrun & Hmem & _).
  exists w'. split; [exact Hrun|]. rewrite Hmem.
  unfold runDigests, digestsOfRun. apply digests_clean.
Qed.

End Digests.

(* ================================================================== *)
(** ** The size of what is sent *)

Section PromptSize.

Variable settings : Settings.

(** The rendered window is the present-situation text plus the final line
    feed. *)
Lemma rendered_present_text (present : list Message) :
  rendered present
  = match present with
    | [] => []
    | _ :: _ => presentSituationTextOf present ++ LF
    end.
Proof.
  induction present as [|m present IH]; [reflexivity|].
  unfold rendered, presentSituationTextOf in *. simpl.
  destruct present as [|m' present'].
  - simpl. unfold speakerLine. now rewrite app_nil_r, <- !app_assoc.
  - rewrite IH. unfold speakerLine. simpl map.
    cbn [join]. now rewrite <- !app_assoc.
Qed.

Lemma pagesOfHistory_bounded (msgs : list Message) :
  0 < pageSize settings ->
  Forall (fun p => len p <= pageSize settings) (pagesOfHistory settings msgs).
Proof.
  intros Hsize. unfold pagesOfHistory, paginate.
  rewrite fullTextOf_rendered. cbn [app].
  destruct (len (rendered (historyOf settings msgs)) =? 0); [constructor|].
  destruct (paginate_loop_enough
              (S (List.length (rendered (historyOf settings msgs))))
              (rendered (historyOf settings msgs)) (pageSize settings) 0 []
              Hsize (Z.le_refl 0)) as (cut & Hrun & _ & Hall);
    [unfold len; lia|].
  rewrite Hrun. exact Hall.
Qed.

Lemma len_promptOf (page presentSituation : jsstring) :
  len (promptOf page presentSituation)
  = promptOverhead + len page + len presentSituation.
Proof.
  unfold promptOverhead, promptOf. rewrite !len_app.
  change (len []) with 0. lia.
Qed.

(** X16.  The present-situation text of the prompts is the rendered
    present window without its final line feed, so it is shorter than
    [presentSituationSize]: at most [presentSituationSize - 1] characters,
    and empty when the window is. *)
Theorem present_text_bounded (limit : Z) (workable : list Message) :
  let present := presentChat limit workable in
  (present <> [] ->
   rendered present = presentSituationTextOf present ++ LF)
  /\ (present = [] -> presentSituationTextOf present = [])
  /\ len (presentSituationTextOf present) <= Z.max 0 (limit - 1).
Proof.
  intros present.
  destruct (windows_cut limit workable) as [Hin _]. fold present in Hin.
  pose proof (rendered_present_text present) as Hrel.
  destruct present as [|m rest] eqn:E.
  - split; [congruence|]. split; [reflexivity|].
    change (len (presentSituationTextOf [])) with 0. lia.
  - split; [intros _; exact Hrel|]. split; [discriminate|].
    assert (m :: rest <> []) as Hne by discriminate.
    specialize (Hin Hne). unfold renderedSize in Hin.
    rewrite Hrel, len_app in Hin. change (len LF) with 1 in Hin. lia.
Qed.

(** X17.  With a positive page size, the prompt sent for any page of the
    history has at most [pageSize + presentSituationSize - 1] characters
    besides the 169 fixed ones. *)
Theorem prompt_size_bounded (msgs : list Message) (page : jsstring) :
  0 < pageSize settings ->
  In page (pagesOfHistory settings msgs) ->
  promptOverhead = 169
  /\ len (promptOf page (presentSituationTextOf (presentOf settings msgs)))
     <= promptOverhead + pageSize settings
        + Z.max 0 (presentSituationSize settings - 1).
Proof.
  intros Hsize Hin. split; [reflexivity|].
  rewrite len_promptOf.
  pose proof (pagesOfHistory_bounded msgs Hsize) as Hall.
  rewrite Forall_forall in Hall. specialize (Hall page Hin).
  destruct (windows_cut (presentSituationSize settings) (workableChat msgs))
    as [Hfit _].
  pose proof (rendered_present_text (presentOf settings msgs)) as Hrel.
  unfold presentOf in *.
  destruct (presentChat (presentSituationSize settings) (workableChat msgs))
    as [|m rest] eqn:E.
  - change (len (presentSituationTextOf [])) with 0. lia.
  - assert (m :: rest <> []) as Hne by discriminate.
    specialize (Hfit Hne). unfold renderedSize in Hfit.
    rewrite Hrel, len_app in Hfit. change (len LF) with 1 in Hfit. lia.
Qed.

End PromptSize.

(* ================================================================== *)
(** ** getSettings *)

Section Store.

Variable env : Env.

(** X18.  [getSettings] fills the store once: called again on the store it
    left, it returns the same settings and leaves the same store; an object
    that owns every key is read back as it is, whatever its values; and
    without an entry in the store the defaults are returned and stored. *)
Theorem getSettings_stable :
  (forall store,
     getSettings (storeAfter store) = getSettings store
     /\ storeAfter (storeAfter store) = storeAfter store)
  /\ (forall s, getSettings (Some (stored s)) = s)
  /\ getSettings None = defaultSettings
  /\ storeAfter None = Some (stored defaultSettings).
Proof.
  assert (forall s, getSettings (Some (stored s)) = s) as Hback
    by (intros []; reflexivity).
  split; [|split; [exact Hback | split; reflexivity]].
  intros store. unfold storeAfter. now rewrite Hback.
Qed.

(** A key the store owns is never replaced by its default, also when
    its value is falsy (a switched-off flag, an empty credential, a page
    size of zero), and a key it lacks takes the default. *)
Lemma getSettings_keeps_own_keys (o : StoredSettings) :
  (forall v, own_enabled o = Some v -> enabled (getSettings (Some o)) = v)
  /\ (forall v, own_pageSize o = Some v -> pageSize (getSettings (Some o)) = v)
  /\ (forall v, own_presentSituationSize o = Some v ->
                presentSituationSize (getSettings (Some o)) = v)
  /\ (forall v, own_apiUrl o = Some v -> apiUrl (getSettings (Some o)) = v)
  /\ (forall v, own_apiKey o = Some v -> apiKey (getSettings (Some o)) = v)
  /\ (forall v, own_summarizeModel o = Some v ->
                summarizeModel (getSettings (Some o)) = v)
  /\ (own_enabled o = None -> enabled (getSettings (Some o)) = true)
  /\ (own_pageSize o = None -> pageSize (getSettings (Some o)) = 2000)
  /\ (own_presentSituationSize o = None ->
      presentSituationSize (getSettings (Some o)) = 1000)
  /\ (own_apiKey o = None -> apiKey (getSettings (Some o)) = []).
Proof.
  destruct o as [e p l u k m]. simpl.
  repeat split; intros; subst; reflexivity.
Qed.


End Store.

(* ================================================================== *)
(** ** The further properties at concrete inputs *)

Section WorkedMore.

Import Examples.

Lemma paginate_page_layout_witness :
  exists pages,
    (forall fuel, (List.length (rendered long_history) < fuel)%nat ->
                  paginate fuel long_history 2000 = Some pages)
    /\ List.length pages = pageCount 2000 (rendered long_history)
    /\ forall k page,
         nth_error pages k = Some page ->
         page = pageAt 2000 (rendered long_history) k
         /\ page <> []
         /\ ((S k < List.length pages)%nat -> len page = 2000).
Proof. apply (paginate_page_layout long_history 2000). lia. Defined.

Lemma paginate_hangs_witness :
  0 < len (rendered chat4) /\ forall fuel, paginate fuel chat4 0 = None.
Proof. apply (paginate_hangs chat4 0); [discriminate | lia]. Defined.

Lemma interceptor_hangs_witness :
  historyOf stuck chat4 = [hi; hello]
  /\ forall fuel,
       dynamicMemoryInterceptor fuel tea stuck (world_of chat4) = None.
Proof.
  split; [reflexivity|].
  apply (interceptor_hangs tea stuck (world_of chat4));
    [reflexivity | simpl; lia].
Defined.

Lemma paginate_number_cases_witness :
  paginate_number 2 chat4 NaN = Some [[]]
  /\ paginate_number 100 chat4 (Int 10) = paginate 100 chat4 10.
Proof.
  destruct (paginate_number_cases 2 chat4) as (_ & _ & Hnan).
  destruct (paginate_number_cases 100 chat4) as (Hint & _).
  split; [apply Hnan; [discriminate | lia] | apply Hint].
Defined.

Lemma present_window_monotone_witness :
  5 <= 20
  /\ (List.length (presentChat 5 [hi; hello; go_on])
      <= List.length (presentChat 20 [hi; hello; go_on]))%nat.
Proof.
  split; [lia | apply (present_window_monotone 5 20 [hi; hello; go_on]); lia].
Defined.

Lemma preamble_scan_cases_witness :
  (scan_start chat4 0 = None <-> Forall preamble_message chat4)
  /\ forall k,
       scan_start chat4 0 = Some k ->
       exists m rest,
         chat4 = initialSystemMessages chat4 ++ m :: rest
         /\ k = List.length (initialSystemMessages chat4)
         /\ Forall preamble_message (initialSystemMessages chat4)
         /\ ~ preamble_message m
         /\ workableChat chat4 = m :: rest.
Proof. apply (preamble_scan_cases chat4). discriminate. Defined.

Lemma early_return_keeps_snapshot_witness :
  exists w' new,
    (forall fuel,
       dynamicMemoryInterceptor fuel tea defaultSettings (world_of chat4)
       = Some w')
    /\ chat w' = chat4
    /\ dynamicMemory w' = [lit "stale"]
    /\ events w' = events (world_of chat4) ++ new
    /\ (new = []
        \/ new = [ConsoleLog Msg.triggered]
        \/ new = [ConsoleLog Msg.triggered; ConsoleLog Msg.no_history]).
Proof.
  apply (early_return_keeps_snapshot tea defaultSettings (world_of chat4)).
  reflexivity.
Defined.


Lemma no_credential_run_witness :
  exists w',
    (forall fuel, enoughFuel keyless chat4 fuel ->
       dynamicMemoryInterceptor fuel offline keyless (world_of chat4) = Some w')
    /\ chat w' = chat4
    /\ dynamicMemory w' = []
    /\ events w'
       = events (world_of chat4)
         ++ ConsoleLog Msg.triggered
            :: flat_map (fun _ => [ToastError Msg.no_key_toast;
                                   ConsoleError Msg.no_key_log []])
                 (pagesOfHistory keyless chat4).
Proof.
  apply (no_credential_run offline keyless (world_of chat4)); reflexivity.
Defined.

Lemma chat_never_grows_witness :
  (List.length (chat after_tea) <= List.length chat4)%nat
  /\ (chat after_tea <> chat4 ->
      historyOf narrow chat4 <> []
      /\ (List.length (chat after_tea) + List.length (historyOf narrow chat4)
          = List.length chat4 + 1)%nat).
Proof.
  apply (chat_never_grows tea narrow 100 (world_of chat4) after_tea).
  vm_compute. reflexivity.
Defined.

Lemma summary_joins_preamble_witness :
  exists summary,
    chat after_tea = initialSystemMessages chat4 ++ [summary]
                     ++ presentOf narrow chat4
    /\ Forall preamble_message (initialSystemMessages chat4 ++ [summary])
    /\ (scan_start (chat after_tea) 0 <> None ->
        exists tail,
          initialSystemMessages (chat after_tea)
          = initialSystemMessages chat4 ++ [summary] ++ tail).
Proof.
  apply (summary_joins_preamble tea narrow 100 (world_of chat4) after_tea);
    [vm_compute; reflexivity | vm_compute; discriminate].
Defined.

Lemma summarizePage_success_is_quiet_witness :
  apiKey narrow <> []
  /\ snd (summarizePage tea (lit "page") (lit "now") narrow (world_of chat4))
     = emit (Fetch (pageRequest narrow (lit "page") (lit "now")))
         (world_of chat4)
  /\ trimmed (lit "likes tea")
  /\ exists content,
       answer (remote tea (net_calls (world_of chat4))
                 (pageRequest narrow (lit "page") (lit "now"))) = Some content
       /\ lit "likes tea" = trim content.
Proof.
  apply (summarizePage_success_is_quiet tea narrow (lit "page") (lit "now")
           (world_of chat4) (lit "likes tea")).
  vm_compute. reflexivity.
Defined.

Lemma snapshot_entries_clean_witness :
  exists w',
    (forall fuel, enoughFuel narrow chat4 fuel ->
       dynamicMemoryInterceptor fuel tea narrow (world_of chat4) = Some w')
    /\ Forall (fun d => d <> [] /\ trimmed d) (dynamicMemory w')
    /\ (List.length (dynamicMemory w')
        <= List.length (pagesOfHistory narrow chat4))%nat.
Proof.
  apply (snapshot_entries_clean tea narrow (world_of chat4)); reflexivity.
Defined.

Lemma prompt_size_bounded_witness :
  promptOverhead = 169
  /\ len (promptOf (lit "ot: hello" ++ LF)
            (presentSituationTextOf (presentOf narrow chat4)))
     <= promptOverhead + pageSize narrow
        + Z.max 0 (presentSituationSize narrow - 1).
Proof.
  apply (prompt_size_bounded narrow chat4 (lit "ot: hello" ++ LF));
    [reflexivity | right; left; reflexivity].
Defined.


(** A store that owns a switched-off flag and an empty credential keeps
    both and takes the other four defaults. *)
Example partial_store_filled :
  getSettings (Some partial_store)
  = {| enabled := false; pageSize := 2000; presentSituationSize := 1000;
       apiUrl := lit "https://openrouter.ai/api/v1/chat/completions";
       apiKey := []; summarizeModel := lit "openai/gpt-3.5-turbo" |}.
Proof. reflexivity. Qed.

End WorkedMore.
